(** * useController: a shallow embedding of [src/useController.ts]

    The hook binds one controlled input to a form [control].  The embedding
    follows the source function statement by statement:

    - JavaScript values are an inductive type [Value]; objects are finite
      maps from property names to values;
    - the control objects live in a store indexed by references, so that
      the identity test [previousControl !== control] and the in-place
      mutations of [control._fields], [control._formValues] and
      [control._defaultValues] are explicit;
    - the methods of the control and the other imported helpers, whose
      bodies are not part of [useController.ts], are the members of the
      interface [Externals];
    - each call of a control method is recorded in a call log. *)

From stdpp Require Import gmap strings list fin_maps.
From Stdlib Require Import ZArith Ascii.

#[local] Set Warnings "-register-all".

(** ** JavaScript values *)

Inductive Value : Type :=
| VUndef
| VNull
| VBool (b : bool)
| VNum (n : Z)
| VStr (s : string)
| VObj (o : gmap string Value).

(** [!!v] *)
Definition truthy (v : Value) : bool :=
  match v with
  | VUndef | VNull => false
  | VBool b => b
  | VNum n => negb (Z.eqb n 0)
  | VStr s => negb (String.eqb s "")
  | VObj _ => true
  end.

(** [a || b] on values: the left operand when it is truthy, else the right. *)
Definition js_or (a b : Value) : Value := if truthy a then a else b.

(** Modelled from the spec: [utils/isBoolean] is imported, its body is not
    in [useController.ts]; "an explicit boolean". *)
Definition isBoolean (v : Value) : bool :=
  match v with VBool _ => true | _ => false end.

(** Modelled from the spec: [utils/isUndefined] is imported, its body is not
    in [useController.ts]. *)
Definition isUndefined (v : Value) : bool :=
  match v with VUndef => true | _ => false end.

(** Modelled from the spec: [utils/cloneObject] is imported.  Values of the
    embedding are immutable, a deep copy is the value itself. *)
Definition cloneObject (v : Value) : Value := v.

(** An optional boolean option ([shouldUnregister?: boolean]) as a value. *)
Definition of_flag (o : option bool) : Value :=
  match o with Some b => VBool b | None => VUndef end.

(** Property read [v[k]]; [undefined] when [v] has no such property. *)
Definition prop (v : Value) (k : string) : Value :=
  match v with
  | VObj o => default VUndef (o !! k)
  | _ => VUndef
  end.

Definition props_of (v : Value) : gmap string Value :=
  match v with VObj o => o | _ => ∅ end.

(** ** PathAccessor (spec 4.1) over a list of path segments *)

Fixpoint get_path (v : Value) (ks : list string) {struct ks} : Value :=
  match ks with
  | [] => v
  | k :: ks' => get_path (prop v k) ks'
  end.

Fixpoint set_path (v : Value) (ks : list string) (x : Value) {struct ks}
    : Value :=
  match ks with
  | [] => x
  | k :: ks' => VObj (<[k := set_path (prop v k) ks' x]> (props_of v))
  end.

Fixpoint unset_path (v : Value) (ks : list string) {struct ks} : Value :=
  match ks with
  | [] => v
  | [k] => match v with VObj o => VObj (delete k o) | _ => v end
  | k :: ks' =>
      match v with
      | VObj o =>
          match o !! k with
          | Some v' => VObj (<[k := unset_path v' ks']> o)
          | None => v
          end
      | _ => v
      end
  end.

(** ** The field registry [control._fields] *)

(** The element handed to the [ref] callback.  Only the presence of the four
    methods that the capability handle forwards to is observable. *)
Record Element := {
  elm_id : nat;
  elm_focus : bool;
  elm_select : bool;
  elm_setCustomValidity : bool;
  elm_reportValidity : bool
}.

(** [field._f.ref]: either whatever [register] stored there, or the
    capability handle
    [{focus, select, setCustomValidity, reportValidity}] that
    [useController] builds; its four closures capture [elm]. *)
Inductive FieldRef : Type :=
| RefPlaceholder
| RefCapabilities (elm : Element).

(** [field._f] *)
Record FieldF := {
  f_ref : FieldRef;
  f_name : string;
  mount : option bool;
  f_disabled : option bool;
  f_rules : gmap string Value
}.

(** Assignments to one member of [field._f]. *)
Definition set_ref (r : FieldRef) (f : FieldF) : FieldF :=
  {| f_ref := r; f_name := f_name f; mount := mount f;
     f_disabled := f_disabled f; f_rules := f_rules f |}.

Definition set_mount (b : bool) (f : FieldF) : FieldF :=
  {| f_ref := f_ref f; f_name := f_name f; mount := Some b;
     f_disabled := f_disabled f; f_rules := f_rules f |}.

Definition set_disabled (b : bool) (f : FieldF) : FieldF :=
  {| f_ref := f_ref f; f_name := f_name f; mount := mount f;
     f_disabled := Some b; f_rules := f_rules f |}.

Definition set_rules (r : gmap string Value) (f : FieldF) : FieldF :=
  {| f_ref := f_ref f; f_name := f_name f; mount := mount f;
     f_disabled := f_disabled f; f_rules := r |}.

(** A node of [_fields]: an object that may carry [_f] and that has one
    child per next path segment. *)
Inductive FieldRefs : Type :=
| FNode (_f : option FieldF) (kids : gmap string FieldRefs).

Definition node_f (t : FieldRefs) : option FieldF :=
  match t with FNode f _ => f end.

Definition node_kids (t : FieldRefs) : gmap string FieldRefs :=
  match t with FNode _ k => k end.

Definition with_f (f : option FieldF) (t : FieldRefs) : FieldRefs :=
  FNode f (node_kids t).

Fixpoint get_node (t : FieldRefs) (ks : list string) {struct ks}
    : option FieldRefs :=
  match ks with
  | [] => Some t
  | k :: ks' =>
      match node_kids t !! k with
      | Some t' => get_node t' ks'
      | None => None
      end
  end.

(** The node at a path that has at least one segment. *)
Definition node_at (t : FieldRefs) (ks : list string) : option FieldRefs :=
  match ks with
  | [] => None
  | _ => get_node t ks
  end.

(** In-place mutation of the node reached by [get_node]. *)
Fixpoint alter_node (g : FieldRefs -> FieldRefs) (t : FieldRefs)
    (ks : list string) {struct ks} : FieldRefs :=
  match ks with
  | [] => g t
  | k :: ks' =>
      FNode (node_f t) (alter (fun t' => alter_node g t' ks') k (node_kids t))
  end.

(** Creation of a node, with the intermediate containers it needs. *)
Fixpoint put_node (g : FieldRefs -> FieldRefs) (t : FieldRefs)
    (ks : list string) {struct ks} : FieldRefs :=
  match ks with
  | [] => g t
  | k :: ks' =>
      FNode (node_f t)
        (<[k := put_node g (default (FNode None ∅) (node_kids t !! k)) ks']>
           (node_kids t))
  end.

Fixpoint drop_node (t : FieldRefs) (ks : list string) {struct ks}
    : FieldRefs :=
  match ks with
  | [] => t
  | [k] => FNode (node_f t) (delete k (node_kids t))
  | k :: ks' =>
      FNode (node_f t) (alter (fun t' => drop_node t' ks') k (node_kids t))
  end.

(** ** Form state, control object and the store *)

(** The object returned by [useFormState]. *)
Record FormState := {
  errors : Value;
  dirtyFields : Value;
  touchedFields : Value;
  validatingFields : Value;
  fs_disabled : Value
}.

(** [control._options] *)
Record Options := {
  opt_shouldUnregister : option bool;
  opt_defaultValues : Value
}.

(** The members of a control object that [useController] reads or writes. *)
Record Control := {
  _names_array : gset string;
  _fields : FieldRefs;
  _formValues : Value;
  _defaultValues : Value;
  _options : Options;
  _state_action : bool;
  _formState : FormState
}.

Definition set_fields (t : FieldRefs) (ctl : Control) : Control :=
  {| _names_array := _names_array ctl; _fields := t;
     _formValues := _formValues ctl; _defaultValues := _defaultValues ctl;
     _options := _options ctl; _state_action := _state_action ctl;
     _formState := _formState ctl |}.

Definition set_formValues (v : Value) (ctl : Control) : Control :=
  {| _names_array := _names_array ctl; _fields := _fields ctl;
     _formValues := v; _defaultValues := _defaultValues ctl;
     _options := _options ctl; _state_action := _state_action ctl;
     _formState := _formState ctl |}.

Definition set_defaultValues (v : Value) (ctl : Control) : Control :=
  {| _names_array := _names_array ctl; _fields := _fields ctl;
     _formValues := _formValues ctl; _defaultValues := v;
     _options := _options ctl; _state_action := _state_action ctl;
     _formState := _formState ctl |}.

Definition set_formState (s : FormState) (ctl : Control) : Control :=
  {| _names_array := _names_array ctl; _fields := _fields ctl;
     _formValues := _formValues ctl; _defaultValues := _defaultValues ctl;
     _options := _options ctl; _state_action := _state_action ctl;
     _formState := s |}.

Definition empty_formState : FormState :=
  {| errors := VObj ∅; dirtyFields := VObj ∅; touchedFields := VObj ∅;
     validatingFields := VObj ∅; fs_disabled := VBool false |}.

Definition empty_control : Control :=
  {| _names_array := ∅; _fields := FNode None ∅;
     _formValues := VObj ∅; _defaultValues := VObj ∅;
     _options := {| opt_shouldUnregister := None; opt_defaultValues := VUndef |};
     _state_action := false; _formState := empty_formState |}.

(** The capabilities of the handle stored in [field._f.ref]. *)
Inductive Capability : Type :=
| focus
| select
| setCustomValidity (message : string)
| reportValidity.

(** Calls that leave [useController]: methods of a control, methods of an
    attached element. *)
Inductive Call : Type :=
| CallRegister (control : nat) (name : string) (options : gmap string Value)
| CallUnregister (control : nat) (name : string)
| CallSetDisabledField (control : nat) (disabled : Value) (name : string)
| CallElement (elm : nat) (cap : Capability).

(** The store: control objects and form-state objects by reference, and
    the log of calls made so far. *)
Record World := {
  controls : gmap nat Control;
  formStates : gmap nat FormState;
  calls : list Call
}.

Definition control_at (w : World) (c : nat) : Control :=
  default empty_control (controls w !! c).

Definition formState_at (w : World) (s : nat) : FormState :=
  default empty_formState (formStates w !! s).

(** Run [f] on the control object [c], in place. *)
Definition on_control (c : nat) (f : Control -> Control) (w : World) : World :=
  {| controls := alter f c (controls w);
     formStates := formStates w;
     calls := calls w |}.

Definition record_call (e : Call) (w : World) : World :=
  {| controls := controls w;
     formStates := formStates w;
     calls := calls w ++ [e] |}.

(** A thrown [TypeError], or a normal completion. *)
Inductive result (A : Type) : Type :=
| Ok (a : A)
| TypeError.
Arguments Ok {A} a.
Arguments TypeError {A}.

(** ** Imported code

    [useController.ts] imports the path syntax, the field-array test, the
    watch and form-state hooks, and receives the control with its methods.
    Their bodies are outside the file; the hook is embedded over any
    implementation of them. *)
Class Externals := {
  (** [utils/stringToPath]: the segments of a dotted/bracketed path *)
  stringToPath : string -> list string;
  (** [logic/isNameInFieldArray] *)
  isNameInFieldArray : gset string -> string -> bool;
  (** [control.register(name, options)] as a transformer of the control *)
  register : string -> gmap string Value -> Control -> Control;
  (** [control.unregister(name)] *)
  unregister : string -> Control -> Control;
  (** [control._setDisabledField({disabled, name})] *)
  _setDisabledField : Value -> string -> Control -> Control;
  (** [useWatch({control, name, defaultValue, exact: true})] *)
  useWatch : Control -> string -> Value -> Value;
  (** [useFormState({control, name, exact: true})]: the reference of the
      form-state object it returns *)
  useFormState : World -> nat -> string -> nat
}.

Section Hook.
Context `{Externals}.

(** Modelled from the spec: [utils/get] is imported, its body is not in
    [useController.ts].  Spec 4.1: the value at [path], or the fallback if
    any segment is absent; reading an absent property gives [undefined]. *)
Definition get (object : Value) (path : string) (defaultValue : Value) : Value :=
  match stringToPath path with
  | [] => defaultValue
  | ks =>
      let result := get_path object ks in
      if isUndefined result then defaultValue else result
  end.

(** Modelled from the spec: [utils/set] is imported.  Spec 4.1: creates the
    intermediate containers as needed. *)
Definition set (object : Value) (path : string) (x : Value) : Value :=
  match stringToPath path with
  | [] => object
  | ks => set_path object ks x
  end.

(** [get(control._fields, name)]: [None] is [undefined]. *)
Definition get_field (fields : FieldRefs) (name : string) : option FieldRefs :=
  node_at fields (stringToPath name).

(** A method call on the control object [c]: logged, then run. *)
Definition call_register (c : nat) (name : string)
    (options : gmap string Value) (w : World) : World :=
  on_control c (register name options) (record_call (CallRegister c name options) w).

Definition call_unregister (c : nat) (name : string) (w : World) : World :=
  on_control c (unregister name) (record_call (CallUnregister c name) w).

Definition call_setDisabledField (c : nat) (disabled : Value) (name : string)
    (w : World) : World :=
  on_control c (_setDisabledField disabled name)
    (record_call (CallSetDisabledField c disabled name) w).

End Hook.

(** ** The hook's own data *)

(** [UseControllerProps].  [control] is [None] when the caller passes no
    control and the one of the form context is used. *)
Record Props := {
  name : string;
  disabled : Value;
  control : option nat;
  shouldUnregister : option bool;
  defaultValue : Value;
  rules : gmap string Value
}.

(** The object returned by one call [control.register(name, options)],
    identified by that call. *)
Record RegisterProps := {
  rp_control : nat;
  rp_name : string;
  rp_options : gmap string Value
}.

(** The four [React.useRef] cells. *)
Record Refs := {
  _previousNameRef : option string;
  _previousControlRef : nat;
  _props : Props;
  _registerProps : RegisterProps
}.

(** The [fieldState] object: its five getters close over [formState] and
    [name].  [fst_object] is the identity of the object (the number of the
    construction that made it). *)
Record FieldState := {
  fst_formState : nat;
  fst_name : string;
  fst_object : nat
}.

(** The handlers of [field]; each is a closure over the listed variables. *)
Inductive Handler : Type :=
| OnChange (name : string)
| OnBlur (name : string) (control : nat)
| RefCallback (control : nat) (name : string).

(** The [field] object.  [field_disabled = None]: the object has no
    [disabled] key. *)
Record FieldObject := {
  field_name : string;
  field_value : Value;
  field_disabled : option Value;
  field_onChange : Handler;
  field_onBlur : Handler;
  field_ref : Handler
}.

(** The closure returned by the main effect: the variables it captured. *)
Record Cleanup := {
  cl_name : string;
  cl_control : nat;
  cl_isArrayField : bool;
  cl_shouldUnregisterField : Value
}.

(** What one render computes. *)
Record Rendered := {
  r_control : nat;
  r_isArrayField : bool;
  r_value : Value;
  r_formState : nat;
  r_field : FieldObject;
  r_fieldState : FieldState
}.

(** The state React keeps for one instance of the hook between renders. *)
Record Hook := {
  h_refs : Refs;
  h_fieldState : FieldState;
  h_constructions : nat;
  h_effect : option (string * nat * bool * option bool * Cleanup);
  h_disabled_effect : option (Value * string * nat)
}.

Section UseController.
Context `{Externals}.

(** Line 60: [control = methods.control]. *)
Definition resolve_control (methods_control : nat) (props : Props) : nat :=
  default methods_control (control props).

(** Lines 73-77: the [defaultValue] handed to [useWatch]. *)
Definition watch_defaultValue (ctl : Control) (name : string)
    (defaultValue : Value) : Value :=
  get (_formValues ctl) name (get (_defaultValues ctl) name defaultValue).

(** [...(isBoolean(props.disabled) ? { disabled: props.disabled } : {})] *)
Definition disabled_option (props : Props) : gmap string Value :=
  if isBoolean (disabled props) then {["disabled" := disabled props]} else ∅.

(** Lines 90-94: [{...props.rules, value, ...disabled_option}]; a later key
    of an object literal wins. *)
Definition render_register_options (props : Props) (value : Value)
    : gmap string Value :=
  disabled_option props ∪ <["value" := value]> (rules props).

(** Lines 205-210: [{..._props.current.rules, ...disabled_option}]. *)
Definition effect_register_options (props : Props) : gmap string Value :=
  disabled_option props ∪ rules props.

(** Lines 99-127: the getters of [fieldState], run at the time of the read
    in the store [w]. *)
Definition read_invalid (fs : FieldState) (w : World) : bool :=
  truthy (get (errors (formState_at w (fst_formState fs))) (fst_name fs) VUndef).

Definition read_isDirty (fs : FieldState) (w : World) : bool :=
  truthy (get (dirtyFields (formState_at w (fst_formState fs))) (fst_name fs) VUndef).

Definition read_isTouched (fs : FieldState) (w : World) : bool :=
  truthy (get (touchedFields (formState_at w (fst_formState fs))) (fst_name fs) VUndef).

Definition read_isValidating (fs : FieldState) (w : World) : bool :=
  truthy (get (validatingFields (formState_at w (fst_formState fs))) (fst_name fs) VUndef).

Definition read_error (fs : FieldState) (w : World) : Value :=
  get (errors (formState_at w (fst_formState fs))) (fst_name fs) VUndef.

(** [React.useMemo(..., [formState, name])]: the cached object is returned
    unless a dependency changed. *)
Definition memo_fieldState (prev : option (FieldState * nat)) (formState : nat)
    (name : string) : FieldState * nat :=
  match prev with
  | Some (fs, n) =>
      if Nat.eqb (fst_formState fs) formState && String.eqb (fst_name fs) name
      then (fs, n)
      else ({| fst_formState := formState; fst_name := name; fst_object := n |}, S n)
  | None =>
      ({| fst_formState := formState; fst_name := name; fst_object := 0 |}, 1)
  end.

(** Lines 153-168: the [ref] callback.  [elm = None] is [null].  When the
    node exists and has no [_f], the assignment [field._f.ref = ...] is an
    assignment to a property of [undefined]. *)
Definition ref_callback (name : string) (elm : option Element) (ctl : Control)
    : result Control :=
  match get_field (_fields ctl) name, elm with
  | Some field, Some e =>
      match node_f field with
      | Some f =>
          Ok (set_fields
                (alter_node (with_f (Some (set_ref (RefCapabilities e) f)))
                   (_fields ctl) (stringToPath name))
                ctl)
      | None => TypeError
      end
  | _, _ => Ok ctl
  end.

(** The [ref] callback of the hook bound to control [c]. *)
Definition ref (c : nat) (name : string) (elm : option Element) (w : World)
    : result World :=
  match controls w !! c with
  | Some ctl =>
      match ref_callback name elm ctl with
      | Ok ctl' =>
          Ok {| controls := <[c := ctl']> (controls w);
                formStates := formStates w; calls := calls w |}
      | TypeError => TypeError
      end
  | None => Ok w
  end.

(** Lines 158-164: what the four closures of the handle do when called. *)
Definition handle_call (elm : Element) (cap : Capability) (w : World)
    : result World :=
  let forwarded := Ok (record_call (CallElement (elm_id elm) cap) w) in
  match cap with
  | focus => if elm_focus elm then forwarded else Ok w
  | select => if elm_select elm then forwarded else Ok w
  | setCustomValidity _ =>
      if elm_setCustomValidity elm then forwarded else TypeError
  | reportValidity =>
      if elm_reportValidity elm then forwarded else TypeError
  end.

(** Lines 170-183: the [field] object.  Every variable the factory reads is
    in the dependency list of its [useMemo], so the memoised object has the
    content computed here. *)
Definition make_field (name : string) (value : Value) (disabled : Value)
    (formState_disabled : Value) (c : nat) : FieldObject :=
  {| field_name := name;
     field_value := value;
     field_disabled :=
       if isBoolean disabled || truthy formState_disabled
       then Some (js_or formState_disabled disabled)
       else None;
     field_onChange := OnChange name;
     field_onBlur := OnBlur name c;
     field_ref := RefCallback c name |}.

(** Lines 213-219: [updateMounted], for the control of the effect. *)
Definition updateMounted (name : string) (value : bool) (ctl : Control)
    : Control :=
  match get_field (_fields ctl) name with
  | Some field =>
      match node_f field with
      | Some f =>
          set_fields
            (alter_node (with_f (Some (set_mount value f))) (_fields ctl)
               (stringToPath name))
            ctl
      | None => ctl
      end
  | None => ctl
  end.

(** Lines 224-230: the body of [if (_shouldUnregisterField)]. *)
Definition seed_defaults (name : string) (defaultValue : Value)
    (ctl : Control) : Control :=
  let value :=
    cloneObject (get (opt_defaultValues (_options ctl)) name defaultValue) in
  let ctl1 := set_defaultValues (set (_defaultValues ctl) name value) ctl in
  if isUndefined (get (_formValues ctl1) name VUndef)
  then set_formValues (set (_formValues ctl1) name value) ctl1
  else ctl1.

(** Truthiness of [_previousNameRef.current]: a non-empty string. *)
Definition truthy_name (n : option string) : bool :=
  match n with
  | Some s => negb (String.eqb s "")
  | None => false
  end.

(** Lines 186-187. *)
Definition resolved_shouldUnregister (form_level field_level : option bool)
    : Value :=
  js_or (of_flag form_level) (of_flag field_level).

(** Lines 185-237: the body of the main effect, for the [name], [control],
    [isArrayField] and [shouldUnregister] of the render that scheduled it.
    It returns the cleanup closure of lines 238-246. *)
Definition effect (name : string) (c : nat) (isArrayField : bool)
    (shouldUnregister : option bool) (refs : Refs) (w : World)
    : Refs * World * Cleanup :=
  let _shouldUnregisterField :=
    resolved_shouldUnregister
      (opt_shouldUnregister (_options (control_at w c))) shouldUnregister in
  let previousName := _previousNameRef refs in
  let previousControl := _previousControlRef refs in
  let isControlChanged := negb (Nat.eqb previousControl c) in
  let isNameChanged := negb (bool_decide (previousName = Some name)) in
  let w1 :=
    if isControlChanged && truthy_name previousName && negb isArrayField
    then call_unregister previousControl (default "" previousName) w
    else w in
  let w2 :=
    if negb isControlChanged && truthy_name previousName && isNameChanged
       && negb isArrayField
    then call_unregister c (default "" previousName) w1
    else w1 in
  let options := effect_register_options (_props refs) in
  let w3 :=
    if isNameChanged || isControlChanged
    then call_register c name options w2
    else w2 in
  let registerProps :=
    if isNameChanged || isControlChanged
    then {| rp_control := c; rp_name := name; rp_options := options |}
    else _registerProps refs in
  let w4 := on_control c (updateMounted name true) w3 in
  let w5 :=
    if truthy _shouldUnregisterField
    then on_control c (seed_defaults name (defaultValue (_props refs))) w4
    else w4 in
  let w6 := if negb isArrayField then call_register c name ∅ w5 else w5 in
  ({| _previousNameRef := Some name; _previousControlRef := c;
      _props := _props refs; _registerProps := registerProps |},
   w6,
   {| cl_name := name; cl_control := c; cl_isArrayField := isArrayField;
      cl_shouldUnregisterField := _shouldUnregisterField |}).

(** Lines 238-246: the cleanup; [control._state.action] is read when the
    cleanup runs. *)
Definition cleanup_unregisters (cl : Cleanup) (w : World) : bool :=
  if cl_isArrayField cl
  then truthy (cl_shouldUnregisterField cl)
       && negb (_state_action (control_at w (cl_control cl)))
  else truthy (cl_shouldUnregisterField cl).

Definition run_cleanup (cl : Cleanup) (w : World) : World :=
  if cleanup_unregisters cl w
  then call_unregister (cl_control cl) (cl_name cl) w
  else on_control (cl_control cl) (updateMounted (cl_name cl) false) w.

(** Lines 249-254: the body of the second effect. *)
Definition disabled_effect (disabled : Value) (name : string) (c : nat)
    (w : World) : World :=
  call_setDisabledField c disabled name w.

(** Lines 56-183: one render.  [h = None] is the first render of the
    instance, where each [useRef] cell takes its initial value.  The
    argument of [React.useRef] on line 90 is an ordinary call expression:
    [control.register] runs in every render. *)
Definition render (methods_control : nat) (props : Props) (h : option Hook)
    (w : World) : Rendered * Hook * World :=
  let c := resolve_control methods_control props in
  let ctl := control_at w c in
  let isArrayField := isNameInFieldArray (_names_array ctl) (name props) in
  let value :=
    useWatch ctl (name props)
      (watch_defaultValue ctl (name props) (defaultValue props)) in
  let formState := useFormState w c (name props) in
  let options := render_register_options props value in
  let w1 := call_register c (name props) options w in
  let refs :=
    match h with
    | Some h0 =>
        {| _previousNameRef := _previousNameRef (h_refs h0);
           _previousControlRef := _previousControlRef (h_refs h0);
           _props := props;
           _registerProps := _registerProps (h_refs h0) |}
    | None =>
        {| _previousNameRef := None;
           _previousControlRef := c;
           _props := props;
           _registerProps :=
             {| rp_control := c; rp_name := name props;
                rp_options := options |} |}
    end in
  let memo :=
    memo_fieldState
      (match h with
       | Some h0 => Some (h_fieldState h0, h_constructions h0)
       | None => None
       end) formState (name props) in
  let field :=
    make_field (name props) value (disabled props)
      (fs_disabled (formState_at w1 formState)) c in
  ({| r_control := c; r_isArrayField := isArrayField; r_value := value;
      r_formState := formState; r_field := field; r_fieldState := fst memo |},
   {| h_refs := refs; h_fieldState := fst memo; h_constructions := snd memo;
      h_effect := match h with Some h0 => h_effect h0 | None => None end;
      h_disabled_effect :=
        match h with Some h0 => h_disabled_effect h0 | None => None end |},
   w1).

(** [Object.is] on a dependency of value type.  Primitive values are
    compared by value.  Object values carry no identity in the embedding:
    whether two of them are one and the same object is given by
    [same_object]. *)
Definition object_is (same_object : bool) (a b : Value) : bool :=
  match a, b with
  | VUndef, VUndef | VNull, VNull => true
  | VBool x, VBool y => Bool.eqb x y
  | VNum x, VNum y => Z.eqb x y
  | VStr x, VStr y => String.eqb x y
  | VObj _, VObj _ => same_object
  | _, _ => false
  end.

(** After a render React runs the effects whose dependencies changed: first
    the cleanup of the previous run, then the bodies in source order.
    [same_object] tells whether [disabled], when it is an object, is the
    object the previous render was given. *)
Definition commit (props : Props) (same_object : bool) (r : Rendered)
    (h : Hook) (w : World) : Hook * World :=
  let deps :=
    (name props, r_control r, r_isArrayField r, shouldUnregister props) in
  let run (w0 : World) :=
    let '(refs', w', cl) :=
      effect (name props) (r_control r) (r_isArrayField r)
        (shouldUnregister props) (h_refs h) w0 in
    (refs', w', Some (deps, cl)) in
  let '(refs1, w1, cell1) :=
    match h_effect h with
    | Some (d, cl) =>
        if bool_decide (d = deps) then (h_refs h, w, h_effect h)
        else run (run_cleanup cl w)
    | None => run w
    end in
  let unchanged :=
    match h_disabled_effect h with
    | Some (d, n, c) =>
        object_is same_object d (disabled props)
        && String.eqb n (name props) && Nat.eqb c (r_control r)
    | None => false
    end in
  let w2 :=
    if unchanged then w1
    else disabled_effect (disabled props) (name props) (r_control r) w1 in
  ({| h_refs := refs1; h_fieldState := h_fieldState h;
      h_constructions := h_constructions h; h_effect := cell1;
      h_disabled_effect := Some (disabled props, name props, r_control r) |},
   w2).

(** The first render of an instance and its effects. *)
Definition mount_hook (methods_control : nat) (props : Props) (w : World)
    : Rendered * Hook * World :=
  let '(r, h, w1) := render methods_control props None w in
  let '(h', w2) := commit props false r h w1 in
  (r, h', w2).

(** A later render of the same instance and its effects. *)
Definition update_hook (methods_control : nat) (props : Props)
    (same_object : bool) (h : Hook) (w : World) : Rendered * Hook * World :=
  let '(r, h1, w1) := render methods_control props (Some h) w in
  let '(h', w2) := commit props same_object r h1 w1 in
  (r, h', w2).

(** The consumer detaches: the cleanup of the last run of the effect. *)
Definition unmount_hook (h : Hook) (w : World) : World :=
  match h_effect h with
  | Some (_, cl) => run_cleanup cl w
  | None => w
  end.

(** ** Notions used in the statements *)

(** The field record at a path, when the node has [_f]. *)
Definition field_at (ctl : Control) (name : string) : option FieldF :=
  get_field (_fields ctl) name ≫= node_f.

(** The defined value at a path of a value tree, if there is one. *)
Definition value_at (tree : Value) (name : string) : option Value :=
  match stringToPath name with
  | [] => None
  | ks => if isUndefined (get_path tree ks) then None else Some (get_path tree ks)
  end.

(** The node of the path and the two value trees of [ctl0] are those of
    [ctl]. *)
Definition settled (name : string) (ctl0 ctl : Control) : Prop :=
  is_Some (field_at ctl name)
  /\ _formValues ctl = _formValues ctl0
  /\ _defaultValues ctl = _defaultValues ctl0
  /\ _options ctl = _options ctl0.

(** Spec 4.2 on [register] at a path that has a node: the value is left
    untouched. *)
Definition register_keeps_existing : Prop :=
  forall n o ctl, is_Some (field_at ctl n) -> settled n ctl (register n o ctl).

(** Spec 4.6 on [_setDisabledField]: a flag is recorded, no value is
    deleted. *)
Definition setDisabledField_keeps_values : Prop :=
  forall d n ctl,
    _formValues (_setDisabledField d n ctl) = _formValues ctl
    /\ _defaultValues (_setDisabledField d n ctl) = _defaultValues ctl.

(** Spec 6 on [useWatch]: the current value, [defaultValue] without one. *)
Definition useWatch_reads_current : Prop :=
  forall ctl n d, useWatch ctl n d = get (_formValues ctl) n d.

(** The control [c] of the store has a node at the path and the value
    trees of [ctl0]. *)
Definition settled_at (name : string) (c : nat) (ctl0 : Control) (w : World)
    : Prop :=
  exists ctl, controls w !! c = Some ctl /\ settled name ctl0 ctl.

(** An entry of [formState.errors] is absent or an error object. *)
Definition absent_or_error (v : Value) : Prop :=
  match v with
  | VUndef | VObj _ => True
  | _ => False
  end.

End UseController.

(** ** The handlers [onChange] and [onBlur] *)

(** [EVENTS.CHANGE] and [EVENTS.BLUR] *)
Inductive EventType : Type :=
| CHANGE
| BLUR.

(** The object [{target: {value, name}, type}] built by a handler. *)
Record FieldEvent := {
  target_value : Value;
  target_name : string;
  event_type : EventType
}.

(** The call a handler makes: a method of the object held by
    [_registerProps.current] at the time of the call. *)
Inductive Dispatch : Type :=
| DispatchOnChange (to : RegisterProps) (event : FieldEvent)
| DispatchOnBlur (to : RegisterProps) (event : FieldEvent).

Definition dispatch_to (d : Dispatch) : RegisterProps :=
  match d with DispatchOnChange r _ | DispatchOnBlur r _ => r end.

Definition dispatch_event (d : Dispatch) : FieldEvent :=
  match d with DispatchOnChange _ e | DispatchOnBlur _ e => e end.

Section Handlers.
Context `{Externals}.

(** [logic/getEventValue] is imported; its body is not in
    [useController.ts]. *)
Variable getEventValue : Value -> Value.

(** Lines 129-139: [onChange], the closure made for [name]. *)
Definition onChange (name : string) (refs : Refs) (event : Value) : Dispatch :=
  DispatchOnChange (_registerProps refs)
    {| target_value := getEventValue event; target_name := name;
       event_type := CHANGE |}.

(** Lines 141-151: [onBlur], the closure made for [name] and [control];
    [control._formValues] is read when the handler is called. *)
Definition onBlur (name : string) (c : nat) (refs : Refs) (w : World)
    : Dispatch :=
  DispatchOnBlur (_registerProps refs)
    {| target_value := get (_formValues (control_at w c)) name VUndef;
       target_name := name; event_type := BLUR |}.

(** A call of [field.onChange] or [field.onBlur]; the [ref] callback is
    [ref] above. *)
Definition call_handler (h : Handler) (refs : Refs) (event : Value)
    (w : World) : option Dispatch :=
  match h with
  | OnChange n => Some (onChange n refs event)
  | OnBlur n c => Some (onBlur n c refs w)
  | RefCallback _ _ => None
  end.

End Handlers.

Section Lifecycle.
Context `{Externals}.

(** The cells of an instance agree with the props of its last render: the
    previous name and control, the registration the handlers call, the
    dependencies of both effects and the variables captured by the pending
    cleanup. *)
Definition synced (methods_control : nat) (props : Props)
    (isArrayField : bool) (h : Hook) : Prop :=
  let c := resolve_control methods_control props in
  _previousNameRef (h_refs h) = Some (name props)
  /\ _previousControlRef (h_refs h) = c
  /\ _props (h_refs h) = props
  /\ rp_name (_registerProps (h_refs h)) = name props
  /\ rp_control (_registerProps (h_refs h)) = c
  /\ h_disabled_effect h = Some (disabled props, name props, c)
  /\ exists cl,
       h_effect h
       = Some (name props, c, isArrayField, shouldUnregister props, cl)
       /\ cl_name cl = name props
       /\ cl_control cl = c
       /\ cl_isArrayField cl = isArrayField.



(** The calls the main effect makes, for the cells it finds. *)
Definition changed (name : string) (c : nat) (refs : Refs) : bool :=
  negb (bool_decide (_previousNameRef refs = Some name))
  || negb (Nat.eqb (_previousControlRef refs) c).

End Lifecycle.

Section HandlersTarget.
Context `{Externals}.
Variable getEventValue : Value -> Value.

(** What [field.onChange] and [field.onBlur] do when they are called with
    the cells [refs]: both call the object held by [_registerProps.current],
    a registration of [name] on the control [c], with an event whose target
    is [name]; [onBlur] reports the value [control._formValues] has at the
    path when it is called. *)
Definition handlers_target (field : FieldObject) (refs : Refs) (name : string)
    (c : nat) : Prop :=
  forall event w,
    call_handler getEventValue (field_onChange field) refs event w
    = Some (DispatchOnChange (_registerProps refs)
              {| target_value := getEventValue event; target_name := name;
                 event_type := CHANGE |})
    /\ call_handler getEventValue (field_onBlur field) refs event w
       = Some (DispatchOnBlur (_registerProps refs)
                 {| target_value :=
                      get (_formValues (control_at w c)) name VUndef;
                    target_name := name; event_type := BLUR |})
    /\ rp_name (_registerProps refs) = name
    /\ rp_control (_registerProps refs) = c.

End HandlersTarget.

(** ** An implementation of the imported code, after the specification

    Used where a statement needs a concrete control.  The bodies of these
    functions are not in [useController.ts]. *)

Fixpoint segments (s : string) (cur : string) : list string :=
  match s with
  | EmptyString => [cur]
  | String a s' =>
      if Ascii.eqb a "."%char || Ascii.eqb a "["%char
      then cur :: segments s' EmptyString
      else if Ascii.eqb a "]"%char then segments s' cur
      else segments s' (String.append cur (String a EmptyString))
  end.

(** Modelled from the spec: the path syntax is not in [useController.ts].
    Spec 2 and 3: a dotted/bracketed path string such as [a.b[0].c]. *)
Definition spec_stringToPath (path : string) : list string :=
  filter (fun k => k ≠ EmptyString) (segments path EmptyString).

(** Modelled from the spec: [logic/isNameInFieldArray] is imported.  Spec 3:
    membership in the set of paths managed as field arrays. *)
Definition spec_isNameInFieldArray (names : gset string) (name : string)
    : bool :=
  bool_decide (name ∈ names).

(** The rule set of a [register] options object. *)
Definition rules_of (options : gmap string Value) : gmap string Value :=
  delete "value" (delete "disabled" options).

Definition boolean_of (v : option Value) : option bool :=
  match v with Some (VBool b) => Some b | _ => None end.

(** Modelled from the spec: [control.register] is a method of the control
    object, created outside [useController.ts].  Spec 4.2: without a node
    at the path, create one, seed the current value with the existing
    current value, else the existing default value, else [options.value],
    and apply [options.disabled] if it is a boolean; with a node, merge the
    new rules over the old ones and leave the value untouched.  Spec 4.3: a
    node starts as Registered(mounted=false). *)
Definition spec_register (name : string) (options : gmap string Value)
    (ctl : Control) : Control :=
  match spec_stringToPath name with
  | [] => ctl
  | ks =>
      match node_at (_fields ctl) ks ≫= node_f with
      | Some f =>
          let f' := set_rules (rules_of options ∪ f_rules f) f in
          set_fields (alter_node (with_f (Some f')) (_fields ctl) ks) ctl
      | None =>
          let f' := {| f_ref := RefPlaceholder; f_name := name;
                       mount := Some false;
                       f_disabled := boolean_of (options !! "disabled");
                       f_rules := rules_of options |} in
          let current := get_path (_formValues ctl) ks in
          let initial := get_path (_defaultValues ctl) ks in
          let seed :=
            if isUndefined current
            then if isUndefined initial
                 then default VUndef (options !! "value")
                 else initial
            else current in
          set_formValues (set_path (_formValues ctl) ks seed)
            (set_fields (put_node (with_f (Some f')) (_fields ctl) ks) ctl)
      end
  end.

Definition clear_status (ks : list string) (s : FormState) : FormState :=
  {| errors := unset_path (errors s) ks;
     dirtyFields := unset_path (dirtyFields s) ks;
     touchedFields := unset_path (touchedFields s) ks;
     validatingFields := unset_path (validatingFields s) ks;
     fs_disabled := fs_disabled s |}.

(** Modelled from the spec: [control.unregister] is a method of the control
    object.  Spec 4.3, "fully unregister": delete the node, delete the
    value and default entries, clear the status sets for the path. *)
Definition spec_unregister (name : string) (ctl : Control) : Control :=
  let ks := spec_stringToPath name in
  {| _names_array := _names_array ctl;
     _fields := drop_node (_fields ctl) ks;
     _formValues := unset_path (_formValues ctl) ks;
     _defaultValues := unset_path (_defaultValues ctl) ks;
     _options := _options ctl;
     _state_action := _state_action ctl;
     _formState := clear_status ks (_formState ctl) |}.

(** Modelled from the spec: [control._setDisabledField] is a method of the
    control object.  Spec 4.6: if [disabled] is an explicit boolean, write
    the node's disabled flag; a no-op if [disabled] is not a boolean. *)
Definition spec_setDisabledField (disabled : Value) (name : string)
    (ctl : Control) : Control :=
  match disabled with
  | VBool b =>
      match node_at (_fields ctl) (spec_stringToPath name) ≫= node_f with
      | Some f =>
          set_fields
            (alter_node (with_f (Some (set_disabled b f))) (_fields ctl)
               (spec_stringToPath name))
            ctl
      | None => ctl
      end
  | _ => ctl
  end.

(** Modelled from the spec: [useWatch] is imported.  Spec 6: the current
    value at the path, [defaultValue] when there is none. *)
Definition spec_useWatch (ctl : Control) (name : string) (defaultValue : Value)
    : Value :=
  match spec_stringToPath name with
  | [] => defaultValue
  | ks =>
      if isUndefined (get_path (_formValues ctl) ks) then defaultValue
      else get_path (_formValues ctl) ks
  end.

(** Modelled from the spec: [useFormState] is imported.  One form-state
    object per control, stored under the reference of the control. *)
Definition spec_useFormState (w : World) (c : nat) (name : string) : nat := c.

Definition spec_externals : Externals :=
  {| stringToPath := spec_stringToPath;
     isNameInFieldArray := spec_isNameInFieldArray;
     register := spec_register;
     unregister := spec_unregister;
     _setDisabledField := spec_setDisabledField;
     useWatch := spec_useWatch;
     useFormState := spec_useFormState |}.

(** ** Sample inputs *)

Definition sample_field (name : string) : FieldF :=
  {| f_ref := RefPlaceholder; f_name := name; mount := Some true;
     f_disabled := None; f_rules := ∅ |}.

Definition sample_fields : FieldRefs :=
  FNode None
    {[ "f" := FNode (Some (sample_field "f")) ∅;
       "items" := FNode (Some (sample_field "items")) ∅ ]}.

(** A control with the fields [f] and [items], the latter a field array. *)
Definition sample_control (form_level : option bool) (action : bool)
    : Control :=
  {| _names_array := {[ "items" ]};
     _fields := sample_fields;
     _formValues := VObj {[ "f" := VStr "typed" ]};
     _defaultValues := VObj {[ "f" := VStr "initial" ]};
     _options :=
       {| opt_shouldUnregister := form_level;
          opt_defaultValues := VObj {[ "f" := VStr "initial" ]} |};
     _state_action := action;
     _formState := empty_formState |}.

Definition sample_world (form_level : option bool) (action : bool) : World :=
  {| controls := {[ 0 := sample_control form_level action ]};
     formStates := {[ 0 := empty_formState ]};
     calls := [] |}.

Definition sample_props (name : string) (field_level : option bool) : Props :=
  {| name := name; disabled := VUndef; control := None;
     shouldUnregister := field_level; defaultValue := VStr "fallback";
     rules := ∅ |}.

Definition sample_element : Element :=
  {| elm_id := 7; elm_focus := true; elm_select := false;
     elm_setCustomValidity := true; elm_reportValidity := true |}.

Definition is_unregister (e : Call) : bool :=
  match e with CallUnregister _ _ => true | _ => false end.

(** The store after [f] is mounted with the form-level flag [true] and the
    per-field prop [false], and then detached. *)
Definition detached_world : World :=
  let m :=
    @mount_hook spec_externals 0 (sample_props "f" (Some false))
      (sample_world (Some true) false) in
  @unmount_hook spec_externals m.1.2 m.2.

(** The cleanup of the plain field [f] with both flags unset. *)
Definition plain_cleanup : Cleanup :=
  {| cl_name := "f"; cl_control := 0; cl_isArrayField := false;
     cl_shouldUnregisterField := VUndef |}.

(** [f] detached with [plain_cleanup], then mounted again. *)
Definition remounted : Rendered * Hook * World :=
  @mount_hook spec_externals 0 (sample_props "f" None)
    (@run_cleanup spec_externals plain_cleanup (sample_world None false)).

(** The sample store after the [ref] callback of [f] received
    [sample_element]. *)
Definition attached_field : FieldF :=
  set_ref (RefCapabilities sample_element) (sample_field "f").

Definition attached_world : World :=
  {| controls :=
       {[ 0 :=
            set_fields
              (FNode None
                 {[ "f" := FNode (Some attached_field) ∅;
                    "items" := FNode (Some (sample_field "items")) ∅ ]})
              (sample_control None false) ]};
     formStates := {[ 0 := empty_formState ]};
     calls := [] |}.


(** A store whose form state holds an error object for [f]. *)
Definition failing_formState : FormState :=
  {| errors := VObj {[ "f" := VObj {[ "type" := VStr "required" ]} ]};
     dirtyFields := VObj ∅; touchedFields := VObj ∅;
     validatingFields := VObj ∅; fs_disabled := VBool false |}.

Definition failing_world : World :=
  {| controls := {[ 0 := sample_control None false ]};
     formStates := {[ 0 := failing_formState ]};
     calls := [] |}.

Definition disabled_props (d : Value) : Props :=
  {| name := "f"; disabled := d; control := None; shouldUnregister := None;
     defaultValue := VUndef; rules := ∅ |}.

(** [f] is mounted on the sample control. *)
Definition mounted_f (form_level : option bool) : Rendered * Hook * World :=
  @mount_hook spec_externals 0 (sample_props "f" None)
    (sample_world form_level false).

(** The instance of [mounted_f] renders again with the name [g]. *)
Definition renamed_to_g (form_level : option bool) : Rendered * Hook * World :=
  @update_hook spec_externals 0 (sample_props "g" None) false
    (mounted_f form_level).1.2 (mounted_f form_level).2.

(** The instance of [mounted_f] renders again with the same props. *)
Definition rendered_again : Rendered * Hook * World :=
  @update_hook spec_externals 0 (sample_props "f" None) false
    (mounted_f None).1.2 (mounted_f None).2.

(** The sample store after the field [a.b] was mounted: [a] is a container
    without [_f]. *)
Definition nested_world : World :=
  (@mount_hook spec_externals 0 (sample_props "a.b" None)
     (sample_world None false)).2.








(** Only [a.b] is registered: [a] is a container without [_f]. *)
Definition container_control : Control :=
  set_fields
    (FNode None
       {[ "a" := FNode None {[ "b" := FNode (Some (sample_field "a.b")) ∅ ]} ]})
    (sample_control None false).

(** The store with [container_control] as its only control. *)
Definition container_world : World :=
  {| controls := {[ 0 := container_control ]};
     formStates := {[ 0 := empty_formState ]};
     calls := [] |}.

(** An element without [select] and [reportValidity]. *)
Definition bare_element : Element :=
  {| elm_id := 9; elm_focus := true; elm_select := false;
     elm_setCustomValidity := true; elm_reportValidity := false |}.

(** * Properties *)

(** ** The registry tree and the store *)

Lemma get_node_alter_node (g : FieldRefs -> FieldRefs) (t : FieldRefs)
    (ks : list string) :
  get_node (alter_node g t ks) ks = g <$> get_node t ks.
Proof.
  revert t. induction ks as [|k ks IH]; intros t; simpl; [done|].
  rewrite lookup_alter_eq. destruct (node_kids t !! k); simpl; auto.
Qed.

Lemma node_f_with_f (f : option FieldF) (t : FieldRefs) :
  node_f (with_f f t) = f.
Proof. done. Qed.


Lemma calls_on_control (c : nat) (f : Control -> Control) (w : World) :
  calls (on_control c f w) = calls w.
Proof. done. Qed.

Lemma formStates_on_control (c : nat) (f : Control -> Control) (w : World) :
  formStates (on_control c f w) = formStates w.
Proof. done. Qed.


Lemma control_at_record_call (e : Call) (w : World) (c : nat) :
  control_at (record_call e w) c = control_at w c.
Proof. done. Qed.

Section Cleanup.
Context `{Externals}.

Lemma field_at_updateMounted (name : string) (b : bool) (ctl : Control) :
  field_at (updateMounted name b ctl) name = set_mount b <$> field_at ctl name.
Proof.
  unfold field_at, updateMounted, get_field, node_at.
  destruct (stringToPath name) as [|k ks] eqn:Hp; [done|].
  cbv beta match.
  destruct (get_node (_fields ctl) (k :: ks)) as [node|] eqn:Hn.
  - destruct (node_f node) as [f|] eqn:Hf.
    + cbn [_fields set_fields]. rewrite get_node_alter_node, Hn.
      cbn. by rewrite Hf.
    + rewrite Hn. cbn. by rewrite Hf.
  - by rewrite Hn.
Qed.

Lemma updateMounted_values (name : string) (b : bool) (ctl : Control) :
  _formValues (updateMounted name b ctl) = _formValues ctl
  /\ _defaultValues (updateMounted name b ctl) = _defaultValues ctl
  /\ _formState (updateMounted name b ctl) = _formState ctl
  /\ _options (updateMounted name b ctl) = _options ctl.
Proof.
  unfold updateMounted.
  destruct (get_field (_fields ctl) name) as [node|]; [|done].
  destruct (node_f node); done.
Qed.

Lemma truthy_resolved (form_level field_level : option bool) :
  truthy (resolved_shouldUnregister form_level field_level)
  = bool_decide (form_level = Some true) || bool_decide (field_level = Some true).
Proof. by destruct form_level as [[]|], field_level as [[]|]. Qed.

Lemma effect_cleanup (name : string) (c : nat) (isArrayField : bool)
    (su : option bool) (refs : Refs) (w : World) :
  (effect name c isArrayField su refs w).2
  = {| cl_name := name; cl_control := c; cl_isArrayField := isArrayField;
       cl_shouldUnregisterField :=
         resolved_shouldUnregister
           (opt_shouldUnregister (_options (control_at w c))) su |}.
Proof. done. Qed.

(** C1 (as amended).  The flag that decides the detach is the disjunction
    of the form-level option and the per-field prop, both read when the
    effect runs.  For a field outside a field array the cleanup calls
    [control.unregister(name)] exactly when one of the two is [true], and
    otherwise only clears the mount flag; for a field in a field array it
    does so when in addition no array action is in progress.  An explicit
    per-field [false] decides nothing. *)
Theorem detach_unregisters_iff_either_flag (name : string) (c : nat)
    (isArrayField : bool) (su : option bool) (refs : Refs) (w w' : World) :
  let form_level := opt_shouldUnregister (_options (control_at w c)) in
  let cl := (effect name c isArrayField su refs w).2 in
  let either :=
    bool_decide (form_level = Some true) || bool_decide (su = Some true) in
  let unregisters :=
    if isArrayField then either && negb (_state_action (control_at w' c))
    else either in
  truthy (cl_shouldUnregisterField cl) = either
  /\ cleanup_unregisters cl w' = unregisters
  /\ run_cleanup cl w'
     = if unregisters then call_unregister c name w'
       else on_control c (updateMounted name false) w'.
Proof.
  intros form_level cl either unregisters. subst cl. rewrite effect_cleanup.
  unfold run_cleanup, cleanup_unregisters. simpl.
  rewrite truthy_resolved. done.
Qed.


End Cleanup.

Section Render.
Context `{Externals}.

Lemma get_value_at (tree : Value) (name : string) (d : Value) :
  get tree name d = default d (value_at tree name).
Proof.
  unfold get, value_at. destruct (stringToPath name) as [|k ks]; [done|].
  cbv zeta. by destruct (isUndefined (get_path tree (k :: ks))).
Qed.

Lemma value_at_defined (tree : Value) (name : string) (v : Value) :
  value_at tree name = Some v -> isUndefined v = false.
Proof.
  unfold value_at. destruct (stringToPath name) as [|k ks]; [done|].
  destruct (isUndefined (get_path tree (k :: ks))) eqn:E; [done|].
  by intros [= <-].
Qed.

Lemma lookup_value_render_options (props : Props) (v : Value) :
  render_register_options props v !! "value" = Some v.
Proof.
  unfold render_register_options, disabled_option.
  destruct (isBoolean (disabled props)).
  - rewrite lookup_union_r by by rewrite lookup_singleton_ne.
    apply lookup_insert_eq.
  - rewrite (left_id_L ∅ (∪)). apply lookup_insert_eq.
Qed.

(** C3.  The value a render seeds the field with is looked up in this
    order: the defined value of [control._formValues] at the path, else the
    defined value of [control._defaultValues] at the path, else the
    [defaultValue] prop.  It is the [defaultValue] given to [useWatch], and
    the result of [useWatch] is the [value] option of the render's
    [control.register(name, ...)] call. *)
Theorem render_seeds_current_then_default_then_prop (methods_control : nat)
    (props : Props) (h : option Hook) (w : World) :
  let c := resolve_control methods_control props in
  let ctl := control_at w c in
  let seed :=
    match value_at (_formValues ctl) (name props) with
    | Some v => v
    | None =>
        match value_at (_defaultValues ctl) (name props) with
        | Some v => v
        | None => defaultValue props
        end
    end in
  let out := render methods_control props h w in
  watch_defaultValue ctl (name props) (defaultValue props) = seed
  /\ r_value out.1.1 = useWatch ctl (name props) seed
  /\ exists options,
       calls out.2 = calls w ++ [CallRegister c (name props) options]
       /\ options !! "value" = Some (useWatch ctl (name props) seed).
Proof.
  intros c ctl seed out.
  assert (Hseed : watch_defaultValue ctl (name props) (defaultValue props) = seed).
  { unfold watch_defaultValue, seed. rewrite !get_value_at.
    destruct (value_at (_formValues ctl) (name props)); [done|].
    by destruct (value_at (_defaultValues ctl) (name props)). }
  split; [done|]. subst out. unfold render. cbn [fst snd r_value].
  fold c. fold ctl. rewrite Hseed. split; [done|].
  eexists. split; [reflexivity|]. apply lookup_value_render_options.
Qed.

End Render.

Section FirstMount.
Context `{Externals}.

Lemma lookup_on_control (c : nat) (f : Control -> Control) (w : World) :
  controls (on_control c f w) !! c = f <$> controls w !! c.
Proof. apply lookup_alter_eq. Qed.

Lemma lookup_call_register (c : nat) (n : string) (o : gmap string Value)
    (w : World) :
  controls (call_register c n o w) !! c = register n o <$> controls w !! c.
Proof. apply lookup_alter_eq. Qed.

Lemma lookup_call_setDisabledField (c : nat) (d : Value) (n : string)
    (w : World) :
  controls (call_setDisabledField c d n w) !! c
  = _setDisabledField d n <$> controls w !! c.
Proof. apply lookup_alter_eq. Qed.

Lemma control_at_lookup (w : World) (c : nat) (ctl : Control) :
  controls w !! c = Some ctl -> control_at w c = ctl.
Proof. unfold control_at. by intros ->. Qed.

(** The store after the first render of an instance and its effects. *)
Lemma mount_hook_world (methods_control : nat) (props : Props) (w : World) :
  let c := resolve_control methods_control props in
  let ctl := control_at w c in
  let isArrayField := isNameInFieldArray (_names_array ctl) (name props) in
  let value :=
    useWatch ctl (name props)
      (watch_defaultValue ctl (name props) (defaultValue props)) in
  let w1 :=
    call_register c (name props) (render_register_options props value) w in
  let w3 := call_register c (name props) (effect_register_options props) w1 in
  let w4 := on_control c (updateMounted (name props) true) w3 in
  let w5 :=
    if truthy (resolved_shouldUnregister
                 (opt_shouldUnregister (_options (control_at w1 c)))
                 (shouldUnregister props))
    then on_control c (seed_defaults (name props) (defaultValue props)) w4
    else w4 in
  let w6 :=
    if negb isArrayField then call_register c (name props) ∅ w5 else w5 in
  (mount_hook methods_control props w).2
  = disabled_effect (disabled props) (name props) c w6.
Proof.
  intros. unfold mount_hook, render, commit, effect.
  cbn [fst snd h_effect h_refs h_disabled_effect r_control r_isArrayField
       _previousNameRef _previousControlRef _props _registerProps].
  rewrite Nat.eqb_refl. cbn [truthy_name negb andb orb].
  rewrite bool_decide_eq_false_2 by done. cbn [truthy_name negb andb orb].
  reflexivity.
Qed.

Lemma mount_hook_value (methods_control : nat) (props : Props) (w : World) :
  let ctl := control_at w (resolve_control methods_control props) in
  r_value (mount_hook methods_control props w).1.1
  = useWatch ctl (name props)
      (watch_defaultValue ctl (name props) (defaultValue props)).
Proof. done. Qed.

End FirstMount.

Section Reregistration.
Context `{Externals}.

Lemma settled_trans (name : string) (a b c : Control) :
  settled name a b -> settled name b c -> settled name a c.
Proof.
  intros (_ & ? & ? & ?) (? & ? & ? & ?). repeat split; [done|congruence..].
Qed.

Lemma settled_updateMounted (name : string) (b : bool) (ctl : Control) :
  is_Some (field_at ctl name) -> settled name ctl (updateMounted name b ctl).
Proof.
  intros [f Hf]. destruct (updateMounted_values name b ctl) as (? & ? & _ & ?).
  repeat split; [|done..]. rewrite field_at_updateMounted, Hf. by eexists.
Qed.

Lemma settled_at_call_register (name : string) (c : nat) (ctl0 : Control)
    (o : gmap string Value) (w : World) :
  register_keeps_existing ->
  settled_at name c ctl0 w -> settled_at name c ctl0 (call_register c name o w).
Proof.
  intros Hreg (ctl & Hc & Hs). exists (register name o ctl). split.
  - by rewrite lookup_call_register, Hc.
  - apply (settled_trans _ _ ctl); [done|]. apply Hreg. by destruct Hs.
Qed.

Lemma settled_at_updateMounted (name : string) (c : nat) (ctl0 : Control)
    (b : bool) (w : World) :
  settled_at name c ctl0 w ->
  settled_at name c ctl0 (on_control c (updateMounted name b) w).
Proof.
  intros (ctl & Hc & Hs). exists (updateMounted name b ctl). split.
  - by rewrite lookup_on_control, Hc.
  - apply (settled_trans _ _ ctl); [done|].
    apply settled_updateMounted. by destruct Hs.
Qed.

Lemma cleanup_only_unmounts (cl : Cleanup) (w : World) :
  cl_isArrayField cl = false ->
  truthy (cl_shouldUnregisterField cl) = false ->
  run_cleanup cl w
  = on_control (cl_control cl) (updateMounted (cl_name cl) false) w.
Proof.
  intros Harr Hflag. unfold run_cleanup, cleanup_unregisters.
  by rewrite Harr, Hflag.
Qed.

(** A mount at a path that has a node, with neither flag set: the hook
    writes no value, and hands the current value to the consumer. *)
Lemma mount_registered_keeps_values (methods_control : nat) (props : Props)
    (w : World) (ctl : Control) :
  register_keeps_existing ->
  setDisabledField_keeps_values ->
  useWatch_reads_current ->
  let c := resolve_control methods_control props in
  controls w !! c = Some ctl ->
  is_Some (field_at ctl (name props)) ->
  opt_shouldUnregister (_options ctl) <> Some true ->
  shouldUnregister props <> Some true ->
  let again := mount_hook methods_control props w in
  _formValues (control_at again.2 c) = _formValues ctl
  /\ _defaultValues (control_at again.2 c) = _defaultValues ctl
  /\ (forall v, value_at (_formValues ctl) (name props) = Some v ->
        r_value again.1.1 = v).
Proof.
  intros Hreg Hdis Hwatch c Hc Hnode Hform Hprop again.
  assert (Hat : control_at w c = ctl) by by apply control_at_lookup.
  assert (Hvalue : forall v, value_at (_formValues ctl) (name props) = Some v ->
                     r_value again.1.1 = v).
  { intros v Hv. subst again. rewrite mount_hook_value. fold c. rewrite Hat.
    by rewrite Hwatch, get_value_at, Hv. }
  assert (S0 : settled_at (name props) c ctl w).
  { exists ctl. by repeat split. }
  cut (exists ctl6 : Control, settled (name props) ctl ctl6 /\
         controls again.2 !! c
         = Some (_setDisabledField (disabled props) (name props) ctl6)).
  { intros (ctl6 & (_ & F6 & D6 & _) & Hfin).
    rewrite (control_at_lookup _ _ _ Hfin).
    destruct (Hdis (disabled props) (name props) ctl6) as [-> ->]. done. }
  subst again. rewrite mount_hook_world. cbv zeta. fold c. rewrite Hat.
  set (o1 := render_register_options _ _).
  pose proof (settled_at_call_register _ _ _ o1 _ Hreg S0) as S1.
  set (w1 := call_register c (name props) o1 w) in *.
  assert (O1 : _options (control_at w1 c) = _options ctl).
  { destruct S1 as (ctl1 & H1 & _ & _ & _ & O1).
    by rewrite (control_at_lookup _ _ _ H1). }
  rewrite truthy_resolved, O1.
  rewrite !bool_decide_eq_false_2 by done. cbn [orb].
  pose proof (settled_at_call_register _ _ _ (effect_register_options props)
                _ Hreg S1) as S3.
  pose proof (settled_at_updateMounted _ _ _ true _ S3) as S4.
  set (w4 := on_control c _ _) in *.
  assert (S6 : settled_at (name props) c ctl
                 (if negb (isNameInFieldArray (_names_array ctl) (name props))
                  then call_register c (name props) ∅ w4 else w4)).
  { destruct (negb _); [by apply settled_at_call_register|done]. }
  destruct S6 as (ctl6 & H6 & S6). exists ctl6. split; [done|].
  unfold disabled_effect. by rewrite lookup_call_setDisabledField, H6.
Qed.

(** C4.  For a field outside a field array whose resolved flag is not
    truthy, the detach runs [updateMounted(name, false)] and nothing else:
    no call is made, the field record at the path differs in its mount flag
    only, and the value trees are unchanged.  A later mount of the same path
    with neither flag set writes no value either (the seeding block is
    skipped), so the value trees are still the ones before the detach and
    the consumer is handed the value the path had then.  [register],
    [_setDisabledField] and [useWatch] are assumed to do what spec 4.2, 4.6
    and 6 say of them. *)
Theorem detach_keeps_node_and_value (methods_control : nat) (props : Props)
    (cl : Cleanup) (w : World) (ctl : Control) :
  register_keeps_existing ->
  setDisabledField_keeps_values ->
  useWatch_reads_current ->
  cl_isArrayField cl = false ->
  truthy (cl_shouldUnregisterField cl) = false ->
  cl_name cl = name props ->
  cl_control cl = resolve_control methods_control props ->
  controls w !! cl_control cl = Some ctl ->
  is_Some (field_at ctl (name props)) ->
  opt_shouldUnregister (_options ctl) <> Some true ->
  shouldUnregister props <> Some true ->
  let w' := run_cleanup cl w in
  let ctl' := control_at w' (cl_control cl) in
  let again := mount_hook methods_control props w' in
  let ctl'' := control_at again.2 (cl_control cl) in
  w' = on_control (cl_control cl) (updateMounted (name props) false) w
  /\ calls w' = calls w
  /\ field_at ctl' (name props) = set_mount false <$> field_at ctl (name props)
  /\ _formValues ctl' = _formValues ctl
  /\ _defaultValues ctl' = _defaultValues ctl
  /\ _formValues ctl'' = _formValues ctl
  /\ _defaultValues ctl'' = _defaultValues ctl
  /\ (forall v, value_at (_formValues ctl) (name props) = Some v ->
        r_value again.1.1 = v).
Proof.
  intros Hreg Hdis Hwatch Harr Hflag Hname Hctl Hc Hnode Hform Hprop.
  intros w' ctl' again ctl''.
  assert (Hrun : w' = on_control (cl_control cl)
                        (updateMounted (name props) false) w).
  { subst w'. rewrite <- Hname. by apply cleanup_only_unmounts. }
  assert (Hc' : controls w' !! cl_control cl
                = Some (updateMounted (name props) false ctl)).
  { by rewrite Hrun, lookup_on_control, Hc. }
  assert (Hctl' : ctl' = updateMounted (name props) false ctl).
  { by apply control_at_lookup. }
  pose proof (settled_updateMounted (name props) false ctl Hnode) as Hs'.
  rewrite <- Hctl' in Hs'. rewrite <- Hctl' in Hc'.
  split; [done|]. split; [by rewrite Hrun|].
  split; [rewrite Hctl'; apply field_at_updateMounted|].
  destruct Hs' as (Hn' & Hfv' & Hdv' & Hopt').
  split; [done|]. split; [done|].
  rewrite Hctl in Hc'.
  destruct (mount_registered_keeps_values methods_control props w' ctl'
              Hreg Hdis Hwatch Hc' Hn') as (F & D & V).
  { by rewrite Hopt'. }
  { done. }
  subst ctl'' again. rewrite Hctl.
  split; [by rewrite F|]. split; [by rewrite D|].
  intros v Hv. apply V. by rewrite Hfv'.
Qed.

End Reregistration.

(** ** The implementation after the specification meets the assumptions *)

Lemma spec_field_at (ctl : Control) (n : string) :
  @field_at spec_externals ctl n
  = node_at (_fields ctl) (spec_stringToPath n) ≫= node_f.
Proof. done. Qed.

Lemma node_at_alter_node (g : FieldRefs -> FieldRefs) (t : FieldRefs)
    (ks : list string) :
  node_at (alter_node g t ks) ks = g <$> node_at t ks.
Proof.
  destruct ks as [|k ks]; [done|]. unfold node_at.
  apply get_node_alter_node.
Qed.

Lemma spec_register_keeps_existing : @register_keeps_existing spec_externals.
Proof.
  intros n o ctl [f Hf]. rewrite spec_field_at in Hf.
  unfold settled. rewrite spec_field_at.
  cbn [register spec_externals]. unfold spec_register.
  destruct (spec_stringToPath n) as [|k ks] eqn:Hp; [done|].
  rewrite Hf. cbn [_fields set_fields _formValues _defaultValues _options].
  rewrite node_at_alter_node.
  destruct (node_at (_fields ctl) (k :: ks)) as [node|]; [|done].
  cbn. split; [by eexists|done].
Qed.

Lemma spec_setDisabledField_keeps_values :
  @setDisabledField_keeps_values spec_externals.
Proof.
  intros d n ctl. cbn [_setDisabledField spec_externals].
  unfold spec_setDisabledField. destruct d; try done.
  by destruct (node_at (_fields ctl) (spec_stringToPath n) ≫= node_f).
Qed.

Lemma spec_useWatch_reads_current : @useWatch_reads_current spec_externals.
Proof. done. Qed.

Section RefCallback.
Context `{Externals}.

Lemma ref_callback_null (name : string) (ctl : Control) :
  ref_callback name None ctl = Ok ctl.
Proof. unfold ref_callback. by destruct (get_field (_fields ctl) name). Qed.

Lemma ref_callback_absent (name : string) (elm : option Element)
    (ctl : Control) :
  get_field (_fields ctl) name = None -> ref_callback name elm ctl = Ok ctl.
Proof. unfold ref_callback. by intros ->. Qed.

Lemma ref_callback_attach (name : string) (e : Element) (ctl : Control)
    (f : FieldF) :
  field_at ctl name = Some f ->
  exists ctl',
    ref_callback name (Some e) ctl = Ok ctl'
    /\ field_at ctl' name = Some (set_ref (RefCapabilities e) f)
    /\ _formValues ctl' = _formValues ctl
    /\ _defaultValues ctl' = _defaultValues ctl.
Proof.
  unfold field_at, ref_callback. intros Hf.
  destruct (get_field (_fields ctl) name) as [node|] eqn:Hn; [|done].
  cbn in Hf. rewrite Hf. eexists. split; [done|].
  cbn [_fields set_fields _formValues _defaultValues].
  split; [|done]. unfold get_field in *.
  by rewrite node_at_alter_node, Hn.
Qed.

Lemma ref_callback_writes (name : string) (elm : option Element)
    (ctl ctl' : Control) :
  ref_callback name elm ctl = Ok ctl' ->
  ctl' <> ctl ->
  exists field e, get_field (_fields ctl) name = Some field /\ elm = Some e.
Proof.
  unfold ref_callback. intros Hr Hne.
  destruct (get_field (_fields ctl) name) as [node|]; [|congruence].
  destruct elm as [e|]; [|congruence]. by exists node, e.
Qed.

(** C5 (as amended).  When the [ref] callback is invoked with an element
    and the path has a field record, the record's [ref] becomes the
    capability handle over that element, the rest of the record and the
    values being unchanged.  When it is invoked with [null] nothing is
    written: the node and the handle bound before stay as they are. *)
Theorem ref_binds_handle_and_null_keeps_it (c : nat) (name : string)
    (w : World) (ctl : Control) (f : FieldF) :
  controls w !! c = Some ctl ->
  field_at ctl name = Some f ->
  (forall e, exists w',
      ref c name (Some e) w = Ok w'
      /\ field_at (control_at w' c) name = Some (set_ref (RefCapabilities e) f)
      /\ _formValues (control_at w' c) = _formValues ctl
      /\ calls w' = calls w)
  /\ ref c name None w = Ok w.
Proof.
  intros Hc Hf. split.
  - intros e. destruct (ref_callback_attach name e ctl f Hf)
      as (ctl' & Hr & Hf' & Hv & _).
    unfold ref. rewrite Hc, Hr. eexists. split; [done|].
    unfold control_at. cbn [controls calls]. by rewrite lookup_insert_eq.
  - unfold ref. rewrite Hc, ref_callback_null.
    rewrite insert_id by done. by destruct w.
Qed.

(** The [ref] callback completes normally and changes nothing when
    [get(control._fields, name)] is [undefined] or when the element is
    [null]; whenever it completes with a changed store, the node exists and
    the element is not [null]. *)
Lemma ref_noop_without_node_or_element (c : nat) (name : string)
    (elm : option Element) (w : World) :
  ((forall ctl, controls w !! c = Some ctl ->
      get_field (_fields ctl) name = None) \/ elm = None ->
   ref c name elm w = Ok w)
  /\ (forall w', ref c name elm w = Ok w' -> w' <> w ->
        exists ctl field e,
          controls w !! c = Some ctl
          /\ get_field (_fields ctl) name = Some field
          /\ elm = Some e).
Proof.
  split.
  - intros Hcase. unfold ref.
    destruct (controls w !! c) as [ctl|] eqn:Hc; [|done].
    assert (Hr : ref_callback name elm ctl = Ok ctl).
    { destruct Hcase as [Habs | ->].
      - apply ref_callback_absent. by apply Habs.
      - apply ref_callback_null. }
    rewrite Hr, insert_id by done. by destruct w.
  - intros w' Hr Hne. unfold ref in Hr.
    destruct (controls w !! c) as [ctl|] eqn:Hc; [|congruence].
    destruct (ref_callback name elm ctl) as [ctl'|] eqn:Hcb; [|done].
    destruct (ref_callback_writes name elm ctl ctl' Hcb) as (field & e & ? & ?).
    + intros ->. apply Hne. injection Hr as <-.
      rewrite insert_id by done. by destruct w.
    + by exists ctl, field, e.
Qed.

End RefCallback.

Section RefErrors.
Context `{Externals}.

(** The [ref] callback throws exactly when the node exists without [_f] and
    an element is given. *)
Lemma ref_callback_throws (name : string) (elm : option Element)
    (ctl : Control) :
  ref_callback name elm ctl = TypeError
  <-> exists field e,
        get_field (_fields ctl) name = Some field
        /\ node_f field = None /\ elm = Some e.
Proof.
  unfold ref_callback. split.
  - destruct (get_field (_fields ctl) name) as [node|]; [|done].
    destruct elm as [e|]; [|done].
    destruct (node_f node) eqn:Hf; [done|]. by exists node, e.
  - intros (field & e & -> & Hf & ->). by rewrite Hf.
Qed.

End RefErrors.

Section Disabled.
Context `{Externals}.

Lemma lookup_disabled_option (props : Props) :
  disabled_option props !! "disabled"
  = if isBoolean (disabled props) then Some (disabled props) else None.
Proof.
  unfold disabled_option. destruct (isBoolean (disabled props)).
  - apply lookup_singleton_eq.
  - apply lookup_empty.
Qed.

Lemma lookup_disabled_render_options (props : Props) (v : Value) :
  render_register_options props v !! "disabled"
  = if isBoolean (disabled props) then Some (disabled props)
    else rules props !! "disabled".
Proof.
  unfold render_register_options.
  rewrite lookup_union, lookup_disabled_option, lookup_insert_ne by done.
  destruct (isBoolean (disabled props)).
  - by destruct (rules props !! "disabled").
  - by rewrite (left_id_L None union).
Qed.

Lemma lookup_disabled_effect_options (props : Props) :
  effect_register_options props !! "disabled"
  = if isBoolean (disabled props) then Some (disabled props)
    else rules props !! "disabled".
Proof.
  unfold effect_register_options.
  rewrite lookup_union, lookup_disabled_option.
  destruct (isBoolean (disabled props)).
  - by destruct (rules props !! "disabled").
  - by rewrite (left_id_L None union).
Qed.

(** C7.  The options of both [control.register(name, ...)] calls carry a
    [disabled] key taken from the prop exactly when the prop is a boolean
    (the rules carry none, by their type), so an explicit [false] is passed
    on and an unspecified prop is not.  The second effect hands the prop as
    it is to [control._setDisabledField]; there a non-boolean is a no-op
    and a boolean is written to the field record. *)
Theorem disabled_applied_only_when_boolean (props : Props) (v : Value)
    (c : nat) (w : World) (ctl : Control) :
  rules props !! "disabled" = None ->
  let d := disabled props in
  render_register_options props v !! "disabled"
    = (if isBoolean d then Some d else None)
  /\ effect_register_options props !! "disabled"
    = (if isBoolean d then Some d else None)
  /\ calls (disabled_effect d (name props) c w)
     = calls w ++ [CallSetDisabledField c d (name props)]
  /\ (isBoolean d = false -> spec_setDisabledField d (name props) ctl = ctl)
  /\ (forall b f,
        d = VBool b ->
        @field_at spec_externals ctl (name props) = Some f ->
        @field_at spec_externals (spec_setDisabledField d (name props) ctl)
          (name props)
        = Some (set_disabled b f)).
Proof.
  intros Hrules d.
  rewrite lookup_disabled_render_options, lookup_disabled_effect_options, Hrules.
  split; [done|]. split; [done|]. split; [done|]. split.
  - by destruct d.
  - intros b f -> Hf. rewrite !spec_field_at in *.
    unfold spec_setDisabledField. rewrite Hf.
    cbn [_fields set_fields]. rewrite node_at_alter_node.
    destruct (node_at (_fields ctl) (spec_stringToPath (name props))); done.
Qed.

(** C10.  The [field] object of a render has a [disabled] key exactly when
    the [disabled] prop is a boolean or [formState.disabled] is truthy; the
    value under the key is [formState.disabled || disabled]; without either
    condition the object has no such key, so an explicit [false] shows as
    [disabled: false] and an unspecified prop as no key. *)
Theorem field_disabled_key (methods_control : nat) (props : Props)
    (h : option Hook) (w : World) :
  let out := (render methods_control props h w).1.1 in
  let formState_disabled := fs_disabled (formState_at w (r_formState out)) in
  (is_Some (field_disabled (r_field out))
   <-> isBoolean (disabled props) = true \/ truthy formState_disabled = true)
  /\ (forall x, field_disabled (r_field out) = Some x ->
        x = js_or formState_disabled (disabled props))
  /\ (isBoolean (disabled props) = false -> truthy formState_disabled = false ->
        field_disabled (r_field out) = None)
  /\ (disabled props = VBool false -> truthy formState_disabled = false ->
        field_disabled (r_field out) = Some (VBool false)).
Proof.
  intros out fsd. subst out fsd. unfold render.
  cbn [fst r_field r_formState make_field field_disabled].
  change (formState_at (call_register _ _ _ w) ?s) with (formState_at w s).
  set (fsd := fs_disabled _).
  destruct (isBoolean (disabled props)) eqn:Hb, (truthy fsd) eqn:Ht;
    cbn [orb]; (split; [|split; [|split]]).
  all: try (intros; congruence).
  all: try (split; [intros; auto | intros; by eexists]).
  all: try (split; [by intros [? ?] | intros [?|?]; congruence]).
  all: try (intros x [= <-]; reflexivity).
  all: try (intros Hd _; unfold js_or; rewrite Ht, Hd; reflexivity).
  all: try (intros Hd; rewrite Hd in Hb; discriminate).
Qed.

End Disabled.

Section FieldStateGetters.
Context `{Externals}.

Lemma memo_fieldState_deps (prev : option (FieldState * nat)) (s : nat)
    (name : string) :
  fst_formState (memo_fieldState prev s name).1 = s
  /\ fst_name (memo_fieldState prev s name).1 = name.
Proof.
  unfold memo_fieldState. destruct prev as [[fs0 n]|]; [|done].
  destruct (Nat.eqb (fst_formState fs0) s) eqn:E1; [|done].
  destruct (String.eqb (fst_name fs0) name) eqn:E2; [|done].
  apply Nat.eqb_eq in E1. apply String.eqb_eq in E2. done.
Qed.

Lemma memo_fieldState_cached (fs0 : FieldState) (n s : nat) (name : string) :
  fst_formState fs0 = s -> fst_name fs0 = name ->
  memo_fieldState (Some (fs0, n)) s name = (fs0, n).
Proof.
  intros <- <-. unfold memo_fieldState.
  by rewrite Nat.eqb_refl, String.eqb_refl.
Qed.

(** C8.  Each property of the [fieldState] object of a render is computed
    when it is read, from the form-state object as it is in the store at
    that time, at the name of the render; a later render with the same
    [formState] and [name] returns the very same object, whose reads follow
    the store.  [invalid] is the truthiness of [error]: it is [true]
    exactly when the errors hold an error object at the path. *)
Theorem fieldState_reads_latest_state (methods_control : nat) (props : Props)
    (h : option Hook) (w0 w : World) :
  let c := resolve_control methods_control props in
  let fs := r_fieldState (render methods_control props h w0).1.1 in
  let st := formState_at w (useFormState w0 c (name props)) in
  read_invalid fs w = truthy (get (errors st) (name props) VUndef)
  /\ read_isDirty fs w = truthy (get (dirtyFields st) (name props) VUndef)
  /\ read_isTouched fs w = truthy (get (touchedFields st) (name props) VUndef)
  /\ read_isValidating fs w
     = truthy (get (validatingFields st) (name props) VUndef)
  /\ read_error fs w = get (errors st) (name props) VUndef
  /\ (forall h0,
        h = Some h0 ->
        fst_formState (h_fieldState h0) = useFormState w0 c (name props) ->
        fst_name (h_fieldState h0) = name props ->
        fs = h_fieldState h0)
  /\ read_invalid fs w = truthy (read_error fs w)
  /\ (absent_or_error (read_error fs w) ->
      (read_invalid fs w = true <-> read_error fs w <> VUndef)).
Proof.
  intros c fs st.
  assert (Hdeps : fst_formState fs = useFormState w0 c (name props)
                  /\ fst_name fs = name props).
  { subst fs. unfold render. cbn [fst r_fieldState]. apply memo_fieldState_deps. }
  destruct Hdeps as [Hs Hn].
  unfold read_invalid, read_isDirty, read_isTouched, read_isValidating,
    read_error. rewrite Hs, Hn. fold st.
  repeat (split; [done|]). split.
  - intros h0 -> Hs0 Hn0. subst fs. unfold render. cbn [fst r_fieldState].
    by rewrite memo_fieldState_cached.
  - split; [done|]. intros Hty.
    destruct (get (errors st) (name props) VUndef); cbn in *; done.
Qed.

End FieldStateGetters.

(** ** Instances on the sample inputs *)

(** C1, counterexample.  Form-level flag [true], per-field prop explicitly
    [false]: after mount and detach the last call is
    [control.unregister("f")] and the field is gone, with its value. *)
Lemma field_level_false_still_unregisters :
  shouldUnregister (sample_props "f" (Some false)) = Some false
  /\ last (calls detached_world) = Some (CallUnregister 0 "f")
  /\ @field_at spec_externals (control_at detached_world 0) "f" = None
  /\ @value_at spec_externals (_formValues (control_at detached_world 0)) "f"
     = None.
Proof. vm_compute. done. Qed.

(** C4, instance: [f] detaches with both flags unset and is mounted
    again. *)
Lemma detach_keeps_node_and_value_witness :
  _formValues (control_at remounted.2 0) = VObj {[ "f" := VStr "typed" ]}
  /\ _defaultValues (control_at remounted.2 0)
     = VObj {[ "f" := VStr "initial" ]}
  /\ r_value remounted.1.1 = VStr "typed".
Proof.
  destruct (@detach_keeps_node_and_value spec_externals 0
              (sample_props "f" None) plain_cleanup (sample_world None false)
              (sample_control None false)
              spec_register_keeps_existing spec_setDisabledField_keeps_values
              spec_useWatch_reads_current eq_refl eq_refl eq_refl eq_refl
              eq_refl (ex_intro _ (sample_field "f") eq_refl)
              ltac:(discriminate) ltac:(discriminate))
    as (_ & _ & _ & _ & _ & Hvalues & Hdefaults & Hvalue).
  split; [exact Hvalues|]. split; [exact Hdefaults|].
  exact (Hvalue (VStr "typed") eq_refl).
Defined.

(** C5, counterexample.  After an element was attached to [f], the [ref]
    callback invoked with [null] returns with the store as it was: the
    handle over the element is still in the field record. *)
Lemma ref_null_does_not_detach :
  @ref spec_externals 0 "f" (Some sample_element) (sample_world None false)
    = Ok attached_world
  /\ @ref spec_externals 0 "f" None attached_world = Ok attached_world
  /\ f_ref <$> @field_at spec_externals (control_at attached_world 0) "f"
     = Some (RefCapabilities sample_element).
Proof. vm_compute. done. Qed.

(** C5, instance. *)
Lemma ref_binds_handle_witness :
  (exists w',
      @ref spec_externals 0 "f" (Some sample_element) (sample_world None false)
        = Ok w'
      /\ @field_at spec_externals (control_at w' 0) "f" = Some attached_field)
  /\ @ref spec_externals 0 "f" None (sample_world None false)
     = Ok (sample_world None false).
Proof.
  destruct (@ref_binds_handle_and_null_keeps_it spec_externals 0 "f"
              (sample_world None false) (sample_control None false)
              (sample_field "f") eq_refl eq_refl) as [Hattach Hnull].
  split; [|exact Hnull].
  destruct (Hattach sample_element) as (w' & Hr & Hf & _).
  exists w'. split; [exact Hr | exact Hf].
Defined.


(** C7, instance: an explicit [false]. *)
Lemma disabled_applied_only_when_boolean_witness :
  render_register_options (disabled_props (VBool false)) VUndef !! "disabled"
    = Some (VBool false)
  /\ f_disabled
       <$> @field_at spec_externals
             (spec_setDisabledField (VBool false) "f"
                (sample_control None false)) "f"
     = Some (Some false).
Proof.
  destruct (@disabled_applied_only_when_boolean spec_externals
              (disabled_props (VBool false)) VUndef 0 (sample_world None false)
              (sample_control None false) eq_refl)
    as (Hrender & _ & _ & _ & Hset).
  split; [exact Hrender|].
  etrans; [exact (f_equal (fmap f_disabled)
                    (Hset false (sample_field "f") eq_refl eq_refl))|].
  reflexivity.
Defined.

(** C8, instance: an error object is in the form state when [invalid] is
    read. *)
Lemma fieldState_reads_latest_state_witness :
  @read_invalid spec_externals
    (r_fieldState
       (@render spec_externals 0 (sample_props "f" None) None
          (sample_world None false)).1.1)
    failing_world
  = true.
Proof.
  destruct (@fieldState_reads_latest_state spec_externals 0
              (sample_props "f" None) None (sample_world None false)
              failing_world) as (_ & _ & _ & _ & _ & _ & _ & Hiff).
  apply Hiff; [exact I | discriminate].
Defined.

(** C10, instance: an explicit [false] gives the key, an unspecified prop
    gives none. *)
Lemma field_disabled_key_witness :
  field_disabled
    (r_field
       (@render spec_externals 0 (disabled_props (VBool false)) None
          (sample_world None false)).1.1)
  = Some (VBool false)
  /\ field_disabled
       (r_field
          (@render spec_externals 0 (disabled_props VUndef) None
             (sample_world None false)).1.1)
     = None.
Proof.
  split.
  - apply (@field_disabled_key spec_externals 0 (disabled_props (VBool false))
             None (sample_world None false)); reflexivity.
  - apply (@field_disabled_key spec_externals 0 (disabled_props VUndef)
             None (sample_world None false)); reflexivity.
Defined.

(** * Further properties of the hook *)

Section Traces.
Context `{Externals}.

Lemma calls_call_register (c : nat) (n : string) (o : gmap string Value)
    (w : World) :
  calls (call_register c n o w) = calls w ++ [CallRegister c n o].
Proof. done. Qed.

Lemma calls_call_unregister (c : nat) (n : string) (w : World) :
  calls (call_unregister c n w) = calls w ++ [CallUnregister c n].
Proof. done. Qed.

Lemma calls_call_setDisabledField (c : nat) (d : Value) (n : string)
    (w : World) :
  calls (call_setDisabledField c d n w)
  = calls w ++ [CallSetDisabledField c d n].
Proof. done. Qed.

Lemma calls_run_cleanup (cl : Cleanup) (w : World) :
  calls (run_cleanup cl w)
  = calls w
    ++ (if cleanup_unregisters cl w
        then [CallUnregister (cl_control cl) (cl_name cl)] else []).
Proof.
  unfold run_cleanup. destruct (cleanup_unregisters cl w).
  - apply calls_call_unregister.
  - by rewrite calls_on_control, app_nil_r.
Qed.

Lemma calls_effect (name : string) (c : nat) (isArrayField : bool)
    (su : option bool) (refs : Refs) (w : World) :
  calls (effect name c isArrayField su refs w).1.2
  = calls w
    ++ (if changed name c refs && truthy_name (_previousNameRef refs)
           && negb isArrayField
        then [CallUnregister (_previousControlRef refs)
                (default EmptyString (_previousNameRef refs))]
        else [])
    ++ (if changed name c refs
        then [CallRegister c name (effect_register_options (_props refs))]
        else [])
    ++ (if isArrayField then [] else [CallRegister c name ∅]).
Proof.
  unfold effect, changed. cbn [fst snd].
  destruct (Nat.eqb (_previousControlRef refs) c) eqn:E;
    [apply Nat.eqb_eq in E|];
    destruct (bool_decide (_previousNameRef refs = Some name)),
      (truthy_name (_previousNameRef refs)), isArrayField,
      (truthy (resolved_shouldUnregister _ _));
    cbn [negb andb orb];
    rewrite ?calls_call_register, ?calls_on_control, ?calls_call_register,
      ?calls_call_unregister, <- ?app_assoc; cbn [app];
    rewrite ?app_nil_r, ?E; reflexivity.
Qed.

(** X1.  What the main effect calls on a control, for any cells it finds:
    at most one [unregister], made first, of the previous name on the
    previous control, and never of the name it registers on the control it
    registers it on; then [register(name, options)] if the name or the
    control changed; last [register(name)] unless the name is in a field
    array. *)
Theorem effect_call_trace (name : string) (c : nat) (isArrayField : bool)
    (su : option bool) (refs : Refs) (w : World) :
  exists unregistered : list Call,
    calls (effect name c isArrayField su refs w).1.2
    = calls w ++ unregistered
      ++ (if changed name c refs
          then [CallRegister c name (effect_register_options (_props refs))]
          else [])
      ++ (if isArrayField then [] else [CallRegister c name ∅])
    /\ (unregistered = []
        \/ exists previousName,
             _previousNameRef refs = Some previousName
             /\ previousName <> EmptyString
             /\ isArrayField = false
             /\ unregistered
                = [CallUnregister (_previousControlRef refs) previousName]
             /\ (previousName <> name \/ _previousControlRef refs <> c)).
Proof.
  eexists. split; [apply calls_effect|].
  destruct (changed name c refs) eqn:Hch; [|by left].
  destruct (_previousNameRef refs) as [p|] eqn:Hp; [|by left].
  cbn [truthy_name andb]. destruct (String.eqb p EmptyString) eqn:Hs; [by left|].
  destruct isArrayField; [by left|]. right. exists p.
  apply String.eqb_neq in Hs. repeat split; try done.
  unfold changed in Hch. rewrite Hp in Hch.
  apply orb_true_iff in Hch as [Hn | Hc].
  - left. apply negb_true_iff, bool_decide_eq_false in Hn. congruence.
  - right. by apply negb_true_iff, Nat.eqb_neq in Hc.
Qed.

End Traces.

Section MountAndUpdate.
Context `{Externals}.

(** X2.  The first render of an instance and its effects call, in this
    order: [register(name, {...rules, value, disabled?})] in the render,
    [register(name, {...rules, disabled?})] and, unless the name is in a
    field array, [register(name)] in the main effect, and
    [_setDisabledField({disabled, name})] in the second effect.  A mount
    never calls [unregister]. *)
Theorem first_mount_calls (methods_control : nat) (props : Props) (w : World) :
  let c := resolve_control methods_control props in
  let out := mount_hook methods_control props w in
  calls out.2
  = calls w
    ++ [CallRegister c (name props)
          (render_register_options props (r_value out.1.1));
        CallRegister c (name props) (effect_register_options props)]
    ++ (if r_isArrayField out.1.1 then []
        else [CallRegister c (name props) ∅])
    ++ [CallSetDisabledField c (disabled props) (name props)]
  /\ Forall (fun e => forall c' n, e <> CallUnregister c' n)
       (drop (length (calls w)) (calls out.2)).
Proof.
  intros c out.
  assert (Hcalls : calls out.2
    = calls w
      ++ [CallRegister c (name props)
            (render_register_options props (r_value out.1.1));
          CallRegister c (name props) (effect_register_options props)]
      ++ (if r_isArrayField out.1.1 then []
          else [CallRegister c (name props) ∅])
      ++ [CallSetDisabledField c (disabled props) (name props)]).
  { subst out. rewrite mount_hook_world, mount_hook_value. cbv zeta.
    fold c. unfold disabled_effect. rewrite calls_call_setDisabledField.
    change (r_isArrayField (mount_hook methods_control props w).1.1)
      with (isNameInFieldArray (_names_array (control_at w c)) (name props)).
    destruct (isNameInFieldArray _ _),
      (truthy (resolved_shouldUnregister _ _)); cbn [negb];
      rewrite ?calls_call_register, ?calls_on_control, ?calls_call_register,
        <- ?app_assoc; reflexivity. }
  split; [exact Hcalls|].
  rewrite Hcalls, drop_app_length.
  destruct (r_isArrayField out.1.1); repeat constructor; discriminate.
Qed.

Lemma synced_mount (methods_control : nat) (props : Props) (w : World) :
  let out := mount_hook methods_control props w in
  synced methods_control props (r_isArrayField out.1.1) out.1.2.
Proof.
  intros out. subst out.
  unfold synced, mount_hook, render, commit, effect.
  cbn [fst snd h_effect h_refs h_disabled_effect r_control r_isArrayField
       _previousNameRef _previousControlRef _props _registerProps
       rp_name rp_control].
  rewrite Nat.eqb_refl, bool_decide_eq_false_2 by done. cbn [negb orb].
  repeat split; try done. eexists. repeat split; done.
Qed.

Lemma synced_update (methods_control0 : nat) (props0 : Props)
    (isArrayField0 : bool) (h : Hook) (methods_control : nat) (props : Props)
    (same_object : bool) (w : World) :
  synced methods_control0 props0 isArrayField0 h ->
  let out := update_hook methods_control props same_object h w in
  synced methods_control props (r_isArrayField out.1.1) out.1.2.
Proof.
  intros (Hn & Hc & Hp & Hrn & Hrc & Hd & cl & He & Hcn & Hcc & Hca) out.
  subst out. unfold synced, update_hook, render, commit.
  cbn [fst snd h_effect h_refs h_disabled_effect r_control r_isArrayField
       _previousNameRef _previousControlRef _props _registerProps].
  rewrite He. cbv beta iota zeta.
  set (c := resolve_control methods_control props).
  set (arr := isNameInFieldArray _ _).
  case_bool_decide as Hdeps.
  + injection Hdeps as Hname Hctl Harr Hsu.
    cbn [fst snd h_effect h_refs h_disabled_effect _previousNameRef
         _previousControlRef _props _registerProps].
    rewrite Hn, Hc, Hrn, Hrc, Hname, Hctl.
    repeat split; try done. exists cl.
    rewrite Hcn, Hcc, Hca, Hname, Hctl, Harr, Hsu. done.
  + unfold effect.
    cbn [fst snd h_effect h_refs h_disabled_effect _previousNameRef
         _previousControlRef _props _registerProps rp_name rp_control].
    repeat split; try done.
    * destruct (negb (bool_decide (_previousNameRef (h_refs h)
                                   = Some (name props))) || _) eqn:Hch;
        [done|].
      apply orb_false_iff in Hch as [Hch _].
      apply negb_false_iff, bool_decide_eq_true in Hch.
      rewrite Hrn. congruence.
    * destruct (negb (bool_decide (_previousNameRef (h_refs h)
                                   = Some (name props))) || _) eqn:Hch;
        [done|].
      apply orb_false_iff in Hch as [_ Hch].
      apply negb_false_iff, Nat.eqb_eq in Hch.
      rewrite Hrc. congruence.
    * eexists. repeat split; done.
Qed.

(** X3.  The cells of an instance agree with its last render after the
    mount and after every later render with its effects: the cleanup that
    is pending, the registration the handlers call and the dependencies
    kept for both effects are those of the current name and control. *)
Theorem cells_follow_last_render :
  (forall methods_control props w,
      let out := mount_hook methods_control props w in
      synced methods_control props (r_isArrayField out.1.1) out.1.2)
  /\ (forall methods_control0 props0 isArrayField0 h methods_control props
        same_object w,
        synced methods_control0 props0 isArrayField0 h ->
        let out := update_hook methods_control props same_object h w in
        synced methods_control props (r_isArrayField out.1.1) out.1.2).
Proof.
  split.
  - apply synced_mount.
  - intros. by eapply synced_update.
Qed.

(** X4.  A later render that changes none of the name, the control, the
    field-array status and the [shouldUnregister] prop runs neither the
    cleanup nor the main effect: it calls [register(name, options)] once
    more in the render, keeps the pending cleanup and the registration held
    for the handlers, and calls [_setDisabledField] only if [disabled]
    changed under [Object.is]: a primitive with another value, or another
    object; the same object passed again is unchanged. *)
Theorem rerender_with_same_dependencies (methods_control0 : nat)
    (props0 : Props) (isArrayField0 : bool) (h : Hook)
    (methods_control : nat) (props : Props) (same_object : bool)
    (w : World) :
  synced methods_control0 props0 isArrayField0 h ->
  let c := resolve_control methods_control props in
  name props = name props0 ->
  c = resolve_control methods_control0 props0 ->
  shouldUnregister props = shouldUnregister props0 ->
  isNameInFieldArray (_names_array (control_at w c)) (name props)
    = isArrayField0 ->
  let out := update_hook methods_control props same_object h w in
  let rendered :=
    call_register c (name props)
      (render_register_options props (r_value out.1.1)) w in
  out.2
  = (if object_is same_object (disabled props0) (disabled props)
     then rendered
     else call_setDisabledField c (disabled props) (name props) rendered)
  /\ h_effect out.1.2 = h_effect h
  /\ _registerProps (h_refs out.1.2) = _registerProps (h_refs h)
  /\ _props (h_refs out.1.2) = props.
Proof.
  intros (Hn & Hc & Hp & Hrn & Hrc & Hd & cl & He & Hcn & Hcc & Hca).
  intros c Hname Hctl Hsu Harr out rendered. subst out rendered.
  unfold update_hook, render, commit.
  cbn [fst snd h_effect h_refs h_disabled_effect r_control r_isArrayField
       r_value _previousNameRef _previousControlRef _props _registerProps].
  fold c. rewrite He, Hd, Harr. cbv beta iota zeta.
  rewrite bool_decide_eq_true_2 by congruence.
  cbn [fst snd h_effect h_refs _registerProps _props].
  rewrite <- Hname, <- Hctl, String.eqb_refl, Nat.eqb_refl, !andb_true_r.
  unfold disabled_effect.
  by destruct (object_is same_object (disabled props0) (disabled props)).
Qed.

End MountAndUpdate.

Section RenameLifecycle.
Context `{Externals}.

Lemma update_hook_rendered (methods_control : nat) (props : Props)
    (same_object : bool) (h : Hook) (w : World) :
  (update_hook methods_control props same_object h w).1.1
  = (render methods_control props (Some h) w).1.1.
Proof.
  unfold update_hook.
  destruct (render methods_control props (Some h) w) as [[r h1] w1].
  by destruct (commit props same_object r h1 w1).
Qed.

(** The calls of a later render whose main-effect dependencies changed:
    the render's [register], the pending cleanup, the main effect, and the
    second effect if its dependencies changed. *)
Lemma calls_update_changed (h : Hook) (methods_control : nat) (props : Props)
    (same_object : bool) (w : World)
    (deps : string * nat * bool * option bool) (cl : Cleanup) :
  let c := resolve_control methods_control props in
  let out := update_hook methods_control props same_object h w in
  let rendered :=
    call_register c (name props)
      (render_register_options props (r_value out.1.1)) w in
  let refs :=
    {| _previousNameRef := _previousNameRef (h_refs h);
       _previousControlRef := _previousControlRef (h_refs h);
       _props := props;
       _registerProps := _registerProps (h_refs h) |} in
  h_effect h = Some (deps, cl) ->
  deps <> (name props, c, r_isArrayField out.1.1, shouldUnregister props) ->
  calls out.2
  = calls (effect (name props) c (r_isArrayField out.1.1)
             (shouldUnregister props) refs (run_cleanup cl rendered)).1.2
    ++ (if match h_disabled_effect h with
           | Some (d, n, c') =>
               object_is same_object d (disabled props)
               && String.eqb n (name props) && Nat.eqb c' c
           | None => false
           end
        then [] else [CallSetDisabledField c (disabled props) (name props)]).
Proof.
  intros c out rendered refs He Hdeps. subst out rendered refs.
  rewrite update_hook_rendered in *.
  unfold update_hook, render, commit.
  cbn [fst snd h_effect h_refs h_disabled_effect r_control r_isArrayField
       r_value _previousNameRef _previousControlRef _props _registerProps].
  fold c. rewrite He. cbv beta iota zeta.
  rewrite bool_decide_eq_false_2 by exact Hdeps.
  destruct (effect _ _ _ _ _ _) as [[refs' w'] cl'] eqn:Heff.
  cbn [fst snd h_effect h_refs h_disabled_effect].
  destruct (match h_disabled_effect h with Some _ => _ | None => _ end).
  - by rewrite app_nil_r.
  - unfold disabled_effect. by rewrite calls_call_setDisabledField.
Qed.

(** X5.  When the name of a mounted field outside a field array changes to
    another name outside a field array on the same control, and the flag
    resolved by the previous run of the effect is truthy, a render with its
    effects calls [unregister(previousName)] twice, once in the cleanup and
    once in the effect; the full sequence is [register(name, options)] of
    the render, the two [unregister], then [register(name, options)],
    [register(name)] and [_setDisabledField]. *)
Theorem rename_with_flag_unregisters_twice (methods_control0 : nat)
    (props0 : Props) (h : Hook) (methods_control : nat) (props : Props)
    (same_object : bool) (w : World)
    (deps : string * nat * bool * option bool) (cl : Cleanup) :
  synced methods_control0 props0 false h ->
  h_effect h = Some (deps, cl) ->
  truthy (cl_shouldUnregisterField cl) = true ->
  let c := resolve_control methods_control props in
  c = resolve_control methods_control0 props0 ->
  name props0 <> EmptyString ->
  name props <> name props0 ->
  isNameInFieldArray (_names_array (control_at w c)) (name props) = false ->
  let out := update_hook methods_control props same_object h w in
  calls out.2
  = calls w
    ++ [CallRegister c (name props)
          (render_register_options props (r_value out.1.1));
        CallUnregister c (name props0);
        CallUnregister c (name props0);
        CallRegister c (name props) (effect_register_options props);
        CallRegister c (name props) ∅;
        CallSetDisabledField c (disabled props) (name props)].
Proof.
  intros (Hn & Hc & Hp & Hrn & Hrc & Hd & cl0 & He0 & Hcn & Hcc & Hca) He Hflag.
  intros c Hctl Hne Hname Harr out.
  rewrite He in He0. injection He0 as -> <-.
  assert (Harr' : r_isArrayField out.1.1 = false).
  { subst out. rewrite update_hook_rendered. exact Harr. }
  subst out.
  rewrite (calls_update_changed h methods_control props same_object w _ cl
             He).
  2:{ rewrite Harr'. intros [= E _]. by symmetry in E. }
  rewrite calls_effect, calls_run_cleanup, calls_call_register, Harr', Hd.
  unfold cleanup_unregisters, changed. rewrite Hca, Hflag, Hcn, Hcc.
  cbn [_previousNameRef _previousControlRef _props truthy_name default].
  rewrite Hn, Hc. fold c. rewrite <- Hctl, Nat.eqb_refl.
  cbn [truthy_name default].
  rewrite bool_decide_eq_false_2 by congruence.
  assert (Hs : String.eqb (name props0) EmptyString = false)
    by by apply String.eqb_neq.
  assert (Hs' : String.eqb (name props0) (name props) = false)
    by (apply String.eqb_neq; congruence).
  rewrite Hs, Hs'. cbn [negb andb orb]. rewrite andb_false_r.
  by rewrite <- !app_assoc.
Qed.

(** X6.  Running the effect again right after its own cleanup, with the
    cells as the first run left them (the remount React's strict mode
    performs), registers the field with a bare [register(name)]: the
    cleanup calls [unregister(name)] when the resolved flag is truthy and
    no array action is in progress, and the second run of the effect calls
    neither [unregister] nor [register(name, options)], so the rules and
    the [disabled] option are not passed again. *)
Theorem effect_again_after_cleanup (name : string) (c : nat)
    (isArrayField : bool) (su : option bool) (refs : Refs) (w w1 : World) :
  let first := effect name c isArrayField su refs w in
  let detached := run_cleanup first.2 w1 in
  let second := effect name c isArrayField su first.1.1 detached in
  calls second.1.2
  = calls w1
    ++ (if cleanup_unregisters first.2 w1 then [CallUnregister c name] else [])
    ++ (if isArrayField then [] else [CallRegister c name ∅])
  /\ second.1.1 = first.1.1.
Proof.
  intros first detached second. subst second detached.
  rewrite calls_effect, calls_run_cleanup.
  assert (Hch : changed name c first.1.1 = false).
  { subst first. unfold changed, effect.
    cbn [fst snd _previousNameRef _previousControlRef].
    by rewrite bool_decide_eq_true_2, Nat.eqb_refl by done. }
  rewrite Hch. cbn [andb app]. split.
  - subst first. by rewrite effect_cleanup, <- app_assoc.
  - subst first. unfold effect at 1. cbn [fst snd].
    fold (changed name c (effect name c isArrayField su refs w).1.1).
    rewrite Hch. unfold effect. cbn [fst snd _props _registerProps]. done.
Qed.

End RenameLifecycle.

Section Elements.
Context `{Externals}.

(** X7.  The [ref] callback throws exactly when it is given an element and
    [get(control._fields, name)] is an object without [_f] (a container of
    deeper fields): the assignment [field._f.ref = ...] is not guarded by
    [field._f], unlike the one in [updateMounted]. *)
Theorem ref_throws_on_container (c : nat) (name : string)
    (elm : option Element) (w : World) :
  ref c name elm w = TypeError
  <-> exists ctl field e,
        controls w !! c = Some ctl
        /\ get_field (_fields ctl) name = Some field
        /\ node_f field = None
        /\ elm = Some e.
Proof.
  unfold ref. split.
  - destruct (controls w !! c) as [ctl|] eqn:Hc; [|done].
    destruct (ref_callback name elm ctl) eqn:Hr; [done|]. intros _.
    apply ref_callback_throws in Hr as (field & e & ? & ? & ?).
    by exists ctl, field, e.
  - intros (ctl & field & e & -> & Hf & Hn & ->).
    assert (Hr : ref_callback name (Some e) ctl = TypeError).
    { apply ref_callback_throws. by exists field, e. }
    by rewrite Hr.
Qed.

(** X8.  The four closures of the capability handle: [focus] and [select]
    test for the method and never throw; [setCustomValidity] and
    [reportValidity] call the method untested and throw exactly when the
    element lacks it.  A call that completes forwards at most the one call
    to the element and changes no control and no form state. *)
Theorem handle_call_forwards_or_throws (elm : Element) (cap : Capability)
    (w : World) :
  (handle_call elm cap w = TypeError
   <-> (exists m, cap = setCustomValidity m)
       /\ elm_setCustomValidity elm = false
       \/ cap = reportValidity /\ elm_reportValidity elm = false)
  /\ (forall w',
        handle_call elm cap w = Ok w' ->
        controls w' = controls w
        /\ formStates w' = formStates w
        /\ (calls w' = calls w
            \/ calls w' = calls w ++ [CallElement (elm_id elm) cap])).
Proof.
  split.
  - unfold handle_call. split.
    + destruct cap; try by destruct (elm_focus elm), (elm_select elm).
      * destruct (elm_setCustomValidity elm) eqn:E; [done|].
        left. split; [by eexists|done].
      * destruct (elm_reportValidity elm) eqn:E; [done|]. by right.
    + intros [[[m ->] ->] | [-> ->]]; done.
  - intros w'. unfold handle_call.
    destruct cap, (elm_focus elm), (elm_select elm),
      (elm_setCustomValidity elm), (elm_reportValidity elm);
      intros [= <-]; cbn; auto.
Qed.

End Elements.

(** ** Paths *)

Lemma prop_insert_eq (m : gmap string Value) (k : string) (x : Value) :
  prop (VObj (<[k := x]> m)) k = x.
Proof. cbn. by rewrite lookup_insert_eq. Qed.

Lemma get_path_set_path (v : Value) (ks : list string) (x : Value) :
  get_path (set_path v ks x) ks = x.
Proof.
  revert v. induction ks as [|k ks IH]; intros v; [done|].
  cbn [set_path get_path]. by rewrite prop_insert_eq.
Qed.

Lemma set_path_set_path (v : Value) (ks : list string) (x : Value) :
  set_path (set_path v ks x) ks x = set_path v ks x.
Proof.
  revert v. induction ks as [|k ks IH]; intros v; [done|].
  cbn [set_path]. rewrite prop_insert_eq, IH. cbn [props_of].
  by rewrite insert_insert_eq.
Qed.

Lemma alter_node_fixed (g : FieldRefs -> FieldRefs) (t node : FieldRefs)
    (ks : list string) :
  get_node t ks = Some node -> g node = node -> alter_node g t ks = t.
Proof.
  revert t. induction ks as [|k ks IH]; intros t; cbn [get_node alter_node].
  - by intros [= ->].
  - destruct (node_kids t !! k) as [t'|] eqn:Hk; [|done]. intros Hn Hg.
    rewrite alter_id; [by destruct t|].
    intros t'' Ht''. rewrite Hk in Ht''. injection Ht'' as <-. by apply IH.
Qed.

Lemma alter_node_twice (g1 g2 g : FieldRefs -> FieldRefs) (t : FieldRefs)
    (ks : list string) :
  (forall n, g2 (g1 n) = g n) ->
  alter_node g2 (alter_node g1 t ks) ks = alter_node g t ks.
Proof.
  intros Hg. revert t.
  induction ks as [|k ks IH]; intros t; cbn [alter_node node_f node_kids].
  - apply Hg.
  - f_equal. rewrite alter_alter_eq. apply alter_ext. intros t' _. apply IH.
Qed.

Lemma get_node_alter_node_other (x : option FieldF) (t : FieldRefs)
    (ks ks' : list string) :
  ks <> ks' ->
  get_node (alter_node (with_f x) t ks) ks' ≫= node_f
  = get_node t ks' ≫= node_f.
Proof.
  revert t ks'. induction ks as [|k ks IH]; intros t ks' Hne.
  - destruct ks' as [|k' ks']; [done|]. done.
  - destruct ks' as [|k' ks']; [done|].
    cbn [alter_node get_node node_kids].
    destruct (decide (k = k')) as [<-|Hk].
    + rewrite lookup_alter_eq.
      destruct (node_kids t !! k) as [t'|]; [|done]. cbn.
      apply IH. congruence.
    + by rewrite lookup_alter_ne.
Qed.

Section Seeding.
Context `{Externals}.

(** X9.  The seeding of lines 224-230, for a path with at least one
    segment: the default tree gets the value of
    [control._options.defaultValues] at the path, or the [defaultValue]
    prop; a defined current value is never overwritten, an undefined one is
    replaced by the same value; fields and options are untouched; seeding
    twice is seeding once. *)
Theorem seed_defaults_keeps_current_value (name : string) (d : Value)
    (ctl : Control) :
  stringToPath name <> [] ->
  let seeded := seed_defaults name d ctl in
  let v := get (opt_defaultValues (_options ctl)) name d in
  get (_defaultValues seeded) name VUndef = v
  /\ (forall x, value_at (_formValues ctl) name = Some x ->
        _formValues seeded = _formValues ctl)
  /\ (value_at (_formValues ctl) name = None ->
        get (_formValues seeded) name VUndef = v)
  /\ _fields seeded = _fields ctl
  /\ _options seeded = _options ctl
  /\ seed_defaults name d seeded = seeded.
Proof.
  intros Hpath seeded v.
  assert (Hget : forall t, get (set t name v) name VUndef = v).
  { intros t. unfold get, set.
    destruct (stringToPath name) as [|k ks]; [done|].
    rewrite get_path_set_path. by destruct v. }
  assert (Hset : forall t, set (set t name v) name v = set t name v).
  { intros t. unfold set. destruct (stringToPath name) as [|k ks]; [done|].
    apply set_path_set_path. }
  assert (Hcur : isUndefined (get (_formValues ctl) name VUndef)
                 = match value_at (_formValues ctl) name with
                   | Some _ => false
                   | None => true
                   end).
  { rewrite get_value_at.
    destruct (value_at (_formValues ctl) name) as [x|] eqn:Hx; [|done].
    exact (value_at_defined _ _ _ Hx). }
  assert (Hseeded : seeded
    = match value_at (_formValues ctl) name with
      | Some _ => set_defaultValues (set (_defaultValues ctl) name v) ctl
      | None =>
          set_formValues (set (_formValues ctl) name v)
            (set_defaultValues (set (_defaultValues ctl) name v) ctl)
      end).
  { subst seeded. unfold seed_defaults, cloneObject. fold v.
    cbn [_formValues set_defaultValues]. rewrite Hcur.
    by destruct (value_at (_formValues ctl) name). }
  rewrite Hseeded. unfold seed_defaults, cloneObject.
  destruct (value_at (_formValues ctl) name) as [x|] eqn:Hx.
  - cbn [_defaultValues _formValues _fields _options set_defaultValues].
    fold v. rewrite !Hset, Hcur, Hget. repeat split; done.
  - cbn [_defaultValues _formValues _fields _options set_defaultValues
         set_formValues].
    fold v. rewrite !Hset, !Hget. repeat split; try done.
    by destruct (isUndefined v).
Qed.

End Seeding.

Section Mounting.
Context `{Externals}.

Lemma set_mount_same (b : bool) (f : FieldF) :
  mount f = Some b -> set_mount b f = f.
Proof. destruct f. cbn. by intros ->. Qed.

Lemma updateMounted_twice (name : string) (b b' : bool) (ctl : Control) :
  updateMounted name b (updateMounted name b' ctl) = updateMounted name b ctl.
Proof.
  unfold updateMounted at 2 3.
  destruct (get_field (_fields ctl) name) as [node|] eqn:Hn.
  2:{ unfold updateMounted. by rewrite Hn. }
  destruct (node_f node) as [f|] eqn:Hf.
  2:{ unfold updateMounted. by rewrite Hn, Hf. }
  unfold updateMounted, get_field in *. cbn [_fields set_fields].
  rewrite node_at_alter_node, Hn. cbn.
  unfold set_fields. cbn. f_equal.
  by apply alter_node_twice.
Qed.

(** X10.  [updateMounted] on a field whose mount flag already has the given
    value changes nothing, and a second [updateMounted] overrides the
    first: clearing the flag of a mounted field and setting it again (the
    unmount and remount of a field moved by an array action) gives back the
    control as it was. *)
Theorem unmount_then_mount_restores (name : string) (ctl : Control)
    (f : FieldF) (b : bool) :
  field_at ctl name = Some f ->
  mount f = Some b ->
  updateMounted name b ctl = ctl
  /\ updateMounted name b (updateMounted name (negb b) ctl) = ctl.
Proof.
  intros Hf Hm.
  assert (Hsame : updateMounted name b ctl = ctl).
  { unfold field_at, updateMounted, get_field, node_at in *.
    destruct (stringToPath name) as [|k ks]; [done|].
    destruct (get_node (_fields ctl) (k :: ks)) as [node|] eqn:Hn; [|done].
    cbn in Hf. rewrite Hf, (set_mount_same _ _ Hm).
    rewrite (alter_node_fixed _ _ node); [by destruct ctl|done|].
    destruct node. cbn in *. by rewrite Hf. }
  split; [done|]. by rewrite updateMounted_twice.
Qed.

(** X11.  [updateMounted] and the [ref] callback write to the field record
    of their own path only: the record of a field at any other path, the
    value trees and the options are the same afterwards. *)
Theorem other_fields_untouched (name other : string) (b : bool)
    (elm : option Element) (ctl : Control) :
  stringToPath other <> stringToPath name ->
  field_at (updateMounted name b ctl) other = field_at ctl other
  /\ (forall ctl',
        ref_callback name elm ctl = Ok ctl' ->
        field_at ctl' other = field_at ctl other
        /\ _formValues ctl' = _formValues ctl
        /\ _defaultValues ctl' = _defaultValues ctl
        /\ _options ctl' = _options ctl).
Proof.
  intros Hne.
  assert (Hother : forall x,
    node_at (alter_node (with_f x) (_fields ctl) (stringToPath name))
      (stringToPath other) ≫= node_f
    = node_at (_fields ctl) (stringToPath other) ≫= node_f).
  { intros x. unfold node_at.
    destruct (stringToPath other) as [|k ks] eqn:Ho; [done|].
    rewrite <- Ho in *. by apply get_node_alter_node_other. }
  split.
  - unfold field_at, updateMounted, get_field.
    destruct (node_at (_fields ctl) (stringToPath name)) as [node|]; [|done].
    destruct (node_f node); [|done]. apply Hother.
  - intros ctl'. unfold field_at, ref_callback, get_field.
    destruct (node_at (_fields ctl) (stringToPath name)) as [node|];
      [|by intros [= <-]].
    destruct elm as [e|]; [|by intros [= <-]].
    destruct (node_f node); [|done]. intros [= <-].
    cbn [_fields set_fields _formValues _defaultValues _options].
    split; [apply Hother|done].
Qed.

End Mounting.

Section HandlerCalls.
Context `{Externals}.
Variable getEventValue : Value -> Value.

Lemma handlers_of_synced (methods_control : nat) (props : Props)
    (isArrayField : bool) (h : Hook) (field : FieldObject) :
  synced methods_control props isArrayField h ->
  field_onChange field = OnChange (name props) ->
  field_onBlur field
  = OnBlur (name props) (resolve_control methods_control props) ->
  handlers_target getEventValue field (h_refs h) (name props)
    (resolve_control methods_control props).
Proof.
  intros (_ & _ & _ & Hrn & Hrc & _) Hchange Hblur event w.
  by rewrite Hchange, Hblur.
Qed.

(** X12.  Once the effects of a render have run, at the mount and at every
    later render, [field.onChange] and [field.onBlur] of that render call
    the registration held for the current name on the current control, and
    the event they build has that name as its target; [onChange] passes
    [getEventValue(event)], [onBlur] the value of [control._formValues] at
    the path at the time of the call. *)
Theorem handlers_call_current_registration :
  (forall methods_control props w,
      let out := mount_hook methods_control props w in
      handlers_target getEventValue (r_field out.1.1) (h_refs out.1.2)
        (name props) (resolve_control methods_control props))
  /\ (forall methods_control0 props0 isArrayField0 h methods_control props
        same_object w,
        synced methods_control0 props0 isArrayField0 h ->
        let out := update_hook methods_control props same_object h w in
        handlers_target getEventValue (r_field out.1.1) (h_refs out.1.2)
          (name props) (resolve_control methods_control props)).
Proof.
  split.
  - intros mc props w out.
    apply (handlers_of_synced mc props (r_isArrayField out.1.1));
      [apply synced_mount|done..].
  - intros mc0 props0 arr0 h mc props so w Hs out.
    apply (handlers_of_synced mc props (r_isArrayField out.1.1)).
    + by eapply synced_update.
    + subst out. by rewrite update_hook_rendered.
    + subst out. by rewrite update_hook_rendered.
Qed.

End HandlerCalls.

(** ** Instances of the further properties *)

(** X3, instance: [f] is mounted, then renamed to [g]. *)
Lemma cells_follow_last_render_witness :
  synced 0 (sample_props "g" None)
    (r_isArrayField (renamed_to_g None).1.1) (renamed_to_g None).1.2.
Proof.
  destruct (@cells_follow_last_render spec_externals) as [Hmount Hupdate].
  exact (Hupdate 0 (sample_props "f" None) _ _ 0 (sample_props "g" None)
           false _
           (Hmount 0 (sample_props "f" None) (sample_world None false))).
Defined.

(** X4, instance: [f] renders again with the same props. *)
Lemma rerender_with_same_dependencies_witness :
  h_effect rendered_again.1.2 = h_effect (mounted_f None).1.2
  /\ List.filter is_unregister (calls rendered_again.2) = [].
Proof.
  assert (Harr : @isNameInFieldArray spec_externals
                   (_names_array (control_at (mounted_f None).2 0)) "f"
                 = r_isArrayField (mounted_f None).1.1)
    by (vm_compute; reflexivity).
  destruct (@rerender_with_same_dependencies spec_externals 0
              (sample_props "f" None) (r_isArrayField (mounted_f None).1.1)
              (mounted_f None).1.2 0 (sample_props "f" None) false
              (mounted_f None).2
              (@synced_mount spec_externals 0 (sample_props "f" None)
                 (sample_world None false))
              eq_refl eq_refl eq_refl Harr) as (Hworld & Heffect & _).
  split; [exact Heffect|].
  unfold rendered_again. rewrite Hworld. vm_compute. reflexivity.
Defined.

(** X5, instance: the form-level flag is [true]; [f] is renamed to [g]. *)
Lemma rename_with_flag_unregisters_twice_witness :
  List.filter is_unregister (calls (renamed_to_g (Some true)).2)
  = [CallUnregister 0 "f"; CallUnregister 0 "f"].
Proof.
  assert (Heffect : h_effect (mounted_f (Some true)).1.2
                    = Some ("f", 0, false, None,
                            {| cl_name := "f"; cl_control := 0;
                               cl_isArrayField := false;
                               cl_shouldUnregisterField := VBool true |}))
    by (vm_compute; reflexivity).
  assert (Hne : "f" <> EmptyString) by discriminate.
  assert (Hname : "g" <> "f") by discriminate.
  assert (Harr : @isNameInFieldArray spec_externals
                   (_names_array (control_at (mounted_f (Some true)).2 0)) "g"
                 = false)
    by (vm_compute; reflexivity).
  pose proof (@rename_with_flag_unregisters_twice spec_externals 0
                (sample_props "f" None) (mounted_f (Some true)).1.2 0
                (sample_props "g" None) false (mounted_f (Some true)).2 _ _
                (@synced_mount spec_externals 0 (sample_props "f" None)
                   (sample_world (Some true) false))
                Heffect eq_refl eq_refl Hne Hname Harr) as Hcalls.
  unfold renamed_to_g. rewrite Hcalls. vm_compute. reflexivity.
Defined.

(** X7, instance: an element is attached at [a] while only [a.b] is
    registered. *)
Lemma ref_throws_on_container_witness :
  @ref spec_externals 0 "a" (Some sample_element) nested_world = TypeError.
Proof.
  apply (proj2 (@ref_throws_on_container spec_externals 0 "a"
                  (Some sample_element) nested_world)).
  exists (control_at nested_world 0).
  eexists. exists sample_element.
  split; [vm_compute; reflexivity|].
  split; [vm_compute; reflexivity|].
  split; reflexivity.
Defined.

(** X8, instance: [reportValidity] on an element without the method. *)
Lemma handle_call_forwards_or_throws_witness :
  @handle_call bare_element reportValidity (sample_world None false)
  = TypeError.
Proof.
  apply (proj2 (proj1 (handle_call_forwards_or_throws bare_element
                         reportValidity (sample_world None false)))).
  right. split; reflexivity.
Defined.

(** X9, instance: [f] has the current value ["typed"]. *)
Lemma seed_defaults_keeps_current_value_witness :
  _formValues
    (@seed_defaults spec_externals "f" (VStr "fallback")
       (sample_control (Some true) false))
  = VObj {[ "f" := VStr "typed" ]}.
Proof.
  assert (Hpath : @stringToPath spec_externals "f" <> []) by discriminate.
  destruct (@seed_defaults_keeps_current_value spec_externals "f"
              (VStr "fallback") (sample_control (Some true) false) Hpath)
    as (_ & Hkeep & _).
  exact (Hkeep (VStr "typed") eq_refl).
Defined.

(** X10, instance: the mounted field [f]. *)
Lemma unmount_then_mount_restores_witness :
  @updateMounted spec_externals "f" true
    (@updateMounted spec_externals "f" false (sample_control None false))
  = sample_control None false.
Proof.
  exact (proj2 (@unmount_then_mount_restores spec_externals "f"
                  (sample_control None false) (sample_field "f") true
                  eq_refl eq_refl)).
Defined.

(** X11, instance: [f] is unmounted, [items] is looked at. *)
Lemma other_fields_untouched_witness :
  @field_at spec_externals
    (@updateMounted spec_externals "f" false (sample_control None false))
    "items"
  = Some (sample_field "items").
Proof.
  assert (Hne : @stringToPath spec_externals "items"
                <> @stringToPath spec_externals "f") by discriminate.
  exact (proj1 (@other_fields_untouched spec_externals "f" "items" false None
                  (sample_control None false) Hne)).
Defined.

(** X12, instance: the handlers of the mounted field [f], with the identity
    for [getEventValue]. *)
Lemma handlers_call_current_registration_witness :
  rp_name (_registerProps (h_refs (mounted_f None).1.2)) = "f"
  /\ @call_handler spec_externals (fun event => event)
       (field_onBlur (r_field (mounted_f None).1.1))
       (h_refs (mounted_f None).1.2) VUndef (mounted_f None).2
     = Some (DispatchOnBlur (_registerProps (h_refs (mounted_f None).1.2))
               {| target_value := VStr "typed"; target_name := "f";
                  event_type := BLUR |}).
Proof.
  destruct (proj1 (@handlers_call_current_registration spec_externals
                     (fun event => event))
              0 (sample_props "f" None) (sample_world None false)
              VUndef (mounted_f None).2) as (_ & Hblur & Hname & _).
  split; [exact Hname|].
  etrans; [exact Hblur|]. vm_compute. reflexivity.
Defined.

Section ArrayDetach.
Context `{Externals}.



End ArrayDetach.

Section RenameAfresh.
Context `{Externals}.



End RenameAfresh.

(** ** Instances of the amended and refuted claims *)




(** C9.  Only [a.b] is registered, so the path [a] has no registered field
    node: [get(control._fields, "a")] is the container object, without
    [_f].  The [ref] callback of [a], given an element, throws at
    [field._f.ref = ...]; [updateMounted], which tests [field._f], leaves
    the same control as it is.  The same happens on the store that the
    mount of [a.b] leaves. *)
Theorem ref_throws_without_field_record :
  @field_at spec_externals container_control "a" = None
  /\ @ref spec_externals 0 "a" (Some sample_element) container_world
     = TypeError
  /\ @updateMounted spec_externals "a" true container_control
     = container_control
  /\ @field_at spec_externals (control_at nested_world 0) "a" = None
  /\ @ref spec_externals 0 "a" (Some sample_element) nested_world
     = TypeError.
Proof. vm_compute. done. Qed.
